(** * The pkgbuild document model: containers, mutation and unparsing

    Shallow embedding of package [pkgbuild] (structures, constructors,
    unparsing and modification of a parsed PKGBUILD), with the properties
    of its renderer and of its mutation operations.

    Modelling conventions.
    - Go [int] is [Z]; every index is compared against [len] before use,
      exactly as the source does.
    - Go [string] is a byte string: [string] of the Standard Library.
    - [[]*Data] and [[]*Container] are lists; a pointer is modelled by the
      value it points to.  The operations below mutate their receiver only,
      so a mutating method returns the new receiver next to its result.
    - [Pkgbuild], a Go [map[string][]*Container], is a [gmap]. *)

From Stdlib Require Import ZArith String Ascii List Lia.
From stdpp Require Import base option list gmap strings sorting.

(** ** Enumerations *)

(** Modelled from the spec: the constant declarations ([TD_*], [TC_*],
    [TU_*]) are not part of the available sources.  The source names
    [TD_VARIABLE], [TD_FUNC] and [TD_UNKNOWN]; every other line type
    [t] (blank line, comment) goes through the [default] branch of
    [NewContainer] and is represented by [TD_other t]. *)
Inductive DataType : Set :=
| TD_VARIABLE
| TD_FUNC
| TD_UNKNOWN
| TD_other (t : Z).

(** Modelled from the spec: the seven container categories (recognized
    variable, unrecognized variable, recognized function, split-package
    function, unrecognized function, unrecognized line, blank or comment),
    under the names used by the source. *)
Inductive ContainerType : Set :=
| TC_VARIABLE
| TC_UVARIABLE
| TC_FUNCTION
| TC_SFUNCTION
| TC_UFUNCTION
| TC_UNKNOWN
| TC_BLANKCOMMENT.

(** Modelled from the spec: the eight rendering styles, under the names
    used by [Container.Lines]; [TU_LINES] is the style of its [default]
    branch. *)
Inductive UnparseStyle : Set :=
| TU_SINGLEVAR
| TU_SINGLEVARQ
| TU_OPTIONAL
| TU_OPTIONALQ
| TU_MULTIPLEVAR
| TU_MULTIPLEVARQ
| TU_MULTIPLELINES
| TU_LINES.

#[global] Instance DataType_eq_dec : EqDecision DataType.
Proof. solve_decision. Defined.
#[global] Instance ContainerType_eq_dec : EqDecision ContainerType.
Proof. solve_decision. Defined.
#[global] Instance UnparseStyle_eq_dec : EqDecision UnparseStyle.
Proof. solve_decision. Defined.

(** ** Structures *)

(** [type Data struct { Type int; Value string; Line int }] *)
Record Data : Set := NewData {
  DType : DataType;
  Value : string;
  Line : Z
}.

(** [type Container struct { Type int; Name string; Begin, End int;
    Values []*Data }] *)
Record Container : Set := MkContainer {
  CType : ContainerType;
  Name : string;
  Begin : Z;
  End_ : Z;
  Values : list Data
}.

#[global] Instance Data_eq_dec : EqDecision Data.
Proof. solve_decision. Defined.
#[global] Instance Container_eq_dec : EqDecision Container.
Proof. solve_decision. Defined.

(** Containers are countable, so that they can be the keys of a map, as in
    the Go type [map[*Container]*Container]. *)
#[global] Instance DataType_countable : Countable DataType.
Proof.
  refine (inj_countable'
    (fun t => match t with
              | TD_VARIABLE => inl 0 | TD_FUNC => inl 1 | TD_UNKNOWN => inl 2
              | TD_other z => inr z
              end)
    (fun x => match x with
              | inl 0 => TD_VARIABLE | inl 1 => TD_FUNC | inl _ => TD_UNKNOWN
              | inr z => TD_other z
              end) _).
  by intros [].
Defined.
#[global] Instance ContainerType_countable : Countable ContainerType.
Proof.
  refine (inj_countable'
    (fun t => match t with
              | TC_VARIABLE => 0 | TC_UVARIABLE => 1 | TC_FUNCTION => 2
              | TC_SFUNCTION => 3 | TC_UFUNCTION => 4 | TC_UNKNOWN => 5
              | TC_BLANKCOMMENT => 6
              end)
    (fun n => match n with
              | 0 => TC_VARIABLE | 1 => TC_UVARIABLE | 2 => TC_FUNCTION
              | 3 => TC_SFUNCTION | 4 => TC_UFUNCTION | 5 => TC_UNKNOWN
              | _ => TC_BLANKCOMMENT
              end) _).
  by intros [].
Defined.
#[global] Instance Data_countable : Countable Data.
Proof.
  refine (inj_countable' (fun d => (DType d, Value d, Line d))
            (fun x => NewData x.1.1 x.1.2 x.2) _).
  by intros [].
Defined.
#[global] Instance Container_countable : Countable Container.
Proof.
  refine (inj_countable'
            (fun c => (CType c, Name c, Begin c, End_ c, Values c))
            (fun x => MkContainer x.1.1.1.1 x.1.1.1.2 x.1.1.2 x.1.2 x.2) _).
  by intros [].
Defined.

(** [type Pkgbuild map[string][]*Container] *)
Abbreviation Pkgbuild := (gmap string (list Container)).

Definition NewPkgbuild : Pkgbuild := ∅.

Definition len {A} (l : list A) : Z := Z.of_nat (length l).

Definition with_Values (c : Container) (vs : list Data) : Container :=
  MkContainer (CType c) (Name c) (Begin c) (End_ c) vs.

Definition with_Value (d : Data) (v : string) : Data :=
  NewData (DType d) v (Line d).

(** ** Modification *)

(** [func (c *Container) Append(t, i int, v ...string)] *)
Definition Container_Append (c : Container) (t : DataType) (i : Z)
    (v : list string) : Container :=
  foldl (fun c e => with_Values c (Values c ++ [NewData t e i])) c v.

(** [func (c *Container) Set(idx int, v string) bool]: the result and the
    receiver after the call. *)
Definition Container_Set (c : Container) (idx : Z) (v : string)
    : bool * Container :=
  if bool_decide (idx < 0 ∨ idx >= len (Values c))%Z then (false, c)
  else if bool_decide (v = EmptyString) then
    (true, with_Values c (take (Z.to_nat idx) (Values c)
                          ++ drop (Z.to_nat (idx + 1)) (Values c)))
  else
    (true, with_Values c
             (alter (fun d => with_Value d v) (Z.to_nat idx) (Values c))).

(** One iteration of the loop of [Pkgbuild.Insert]. *)
Definition Pkgbuild_Insert1 (p : Pkgbuild) (c : Container) : Pkgbuild :=
  match p !! Name c with
  | Some lc => <[Name c := lc ++ [c]]> p
  | None => <[Name c := [c]]> p
  end.

(** [func (p Pkgbuild) Insert(cont ...*Container)] *)
Definition Pkgbuild_Insert (p : Pkgbuild) (cont : list Container) : Pkgbuild :=
  foldl Pkgbuild_Insert1 p cont.

(** [func (p Pkgbuild) Remove(k string, i int) bool]: the result and the
    receiver after the call. *)
Definition Pkgbuild_Remove (p : Pkgbuild) (k : string) (i : Z)
    : bool * Pkgbuild :=
  match p !! k with
  | Some lc =>
      if bool_decide (i >= 0 ∧ i < len lc)%Z then
        (true, <[k := take (Z.to_nat i) lc ++ drop (Z.to_nat (i + 1)) lc]> p)
      else (false, p)
  | None => (false, p)
  end.

(** [func (c *Container) Empty() bool] *)
Definition Container_Empty (c : Container) : bool :=
  bool_decide (len (Values c) = 0%Z).

(** Every container of the document is filed under its own name. *)
Definition keyed (p : Pkgbuild) : Prop :=
  ∀ k lc c, p !! k = Some lc → c ∈ lc → Name c = k.

(** The containers of [cont] named [k], in the order of [cont]. *)
Definition named (k : string) (cont : list Container) : list Container :=
  filter (fun c => Name c = k) cont.

(** ** Tables and helpers declared outside the available sources *)

(** The key constants, the sentinel names and the recognized-name tables
    are declared in a file that is not available; they are parameters of
    the model.  [U_VARIABLES] is the Go map together with its lookup: a
    name without entry yields the zero style. *)
Class Constants : Type := {
  HEADER : string; PKGBASE : string; PKGNAME : string; PKGVER : string;
  PKGREL : string; EPOCH : string; PKGDESC : string; ARCH : string;
  URL : string; LICENSE : string; GROUPS : string; DEPENDS : string;
  MAKEDEPENDS : string; CHECKDEPENDS : string; OPTDEPENDS : string;
  PROVIDES : string; CONFLICTS : string; REPLACES : string; BACKUP : string;
  OPTIONS : string; INSTALL : string; CHANGELOG : string; SOURCE : string;
  NOEXTRACT : string; MD5SUMS : string; SHA1SUMS : string;
  SHA256SUMS : string;
  PREPARE : string; BUILD : string; CHECK : string; PACKAGE : string;
  UNKNOWN : string; BLANK : string;
  L_VARIABLES : list string;
  L_FUNCTIONS : list string;
  U_VARIABLES : string → UnparseStyle
}.

(** The helper functions [lineType], [splitString], [quotify] and
    [joinData] are called by the available code but defined elsewhere;
    they are parameters too, as is the library routine [sort.Sort], whose
    result for a given [Less] is not fixed by its contract. *)
Class Helpers : Type := {
  lineType : string → DataType * Z * list string;
  splitString : string → list string;
  quotify : string → string;
  joinData : list Data → bool → bool → string;
  sort_Sort : (Container → Container → bool) → list Container → list Container
}.

(** The ordering index of [Pkgbuild.Order], a Go
    [map[*Container]*Container]: a container is mapped to its predecessor.
    A pointer being modelled by the value it points to, the keys are
    containers. *)
Abbreviation OrderIndex := (gmap Container Container).

(** All containers of a document, in the order in which the map is
    traversed. *)
Definition containers (p : Pkgbuild) : list Container :=
  concat (map_to_list p).*2.

(** Modelled from the spec: [getLinesByKey] and [getLinesByType] are not
    part of the available sources.  A key stage is to "emit all Entries
    whose name matches" the key, a category stage all entries of the
    category; the order of the entries of a stage ("canonical-index
    order") and what else a stage emits with them on the strength of the
    ordering index (the blank and comment groups, which are re-emitted
    though no stage is theirs) are left open. *)
Class Emitters : Type := {
  keyEntries : Pkgbuild → OrderIndex → string → list Container;
  typeEntries : Pkgbuild → OrderIndex → ContainerType → list Container;
  keyEntries_all : ∀ p o k, default [] (p !! k) ⊆+ keyEntries p o k;
  typeEntries_all : ∀ p o t,
    filter (fun c => CType c = t) (containers p) ⊆+ typeEntries p o t
}.

(** ** Library routines *)

(** [strings.Repeat] *)
Fixpoint Repeat_nat (s : string) (n : nat) : string :=
  match n with
  | O => EmptyString
  | S n' => s +:+ Repeat_nat s n'
  end.

Definition Repeat (s : string) (count : Z) : string :=
  Repeat_nat s (Z.to_nat count).

(** [strings.HasPrefix] *)
Definition HasPrefix (s pre : string) : bool := String.prefix pre s.

Definition bytes (s : string) : list N := N_of_ascii <$> list_ascii_of_string s.

Definition locb : N := 0x80.
Definition hicb : N := 0xBF.

(** The table [first] of package [utf8], joined with [acceptRanges]: for a
    leading byte [c >= 0x80], the length of the encoding and the range
    accepted for its second byte; [None] for an invalid leading byte. *)
Definition utf8_first (c : N) : option (nat * N * N) :=
  if (c <? 0xC2)%N then None
  else if (c <=? 0xDF)%N then Some (2, locb, hicb)
  else if (c =? 0xE0)%N then Some (3, 0xA0%N, hicb)
  else if (c <=? 0xEC)%N then Some (3, locb, hicb)
  else if (c =? 0xED)%N then Some (3, locb, 0x9F%N)
  else if (c <=? 0xEF)%N then Some (3, locb, hicb)
  else if (c =? 0xF0)%N then Some (4, 0x90%N, hicb)
  else if (c <=? 0xF3)%N then Some (4, locb, hicb)
  else if (c =? 0xF4)%N then Some (4, locb, 0x8F%N)
  else None.

Definition continuation (c : N) : bool := (locb <=? c)%N && (c <=? hicb)%N.

(** The number of bytes one iteration of [utf8.RuneCountInString] advances
    by, on the not yet consumed bytes [bs]. *)
Definition rune_size (bs : list N) : nat :=
  match bs with
  | [] => 1
  | c :: rest =>
      if (c <? 0x80)%N then 1
      else match utf8_first c with
           | None => 1
           | Some (size, lo, hi) =>
               if (length bs <? size)%nat then 1
               else match rest with
                    | c1 :: rest1 =>
                        if (c1 <? lo)%N || (hi <? c1)%N then 1
                        else if (size =? 2)%nat then 2
                        else match rest1 with
                             | c2 :: rest2 =>
                                 if negb (continuation c2) then 1
                                 else if (size =? 3)%nat then 3
                                 else match rest2 with
                                      | c3 :: _ =>
                                          if negb (continuation c3) then 1
                                          else 4
                                      | [] => 1
                                      end
                             | [] => 1
                             end
                    | [] => 1
                    end
           end
  end.

Fixpoint rune_count (fuel : nat) (bs : list N) : Z :=
  match fuel with
  | O => 0
  | S fuel' =>
      match bs with
      | [] => 0
      | _ => 1 + rune_count fuel' (drop (rune_size bs) bs)
      end
  end.

(** [utf8.RuneCountInString]; every iteration consumes at least one byte,
    so the length of the string is enough fuel. *)
Definition RuneCountInString (s : string) : Z :=
  rune_count (String.length s) (bytes s).

(** ** Constructors *)

Section Model.
Context {K : Constants} {F : Helpers} {E : Emitters}.

(** The loops of [NewContainer] over [L_VARIABLES] and [L_FUNCTIONS]:
    whether some element of the table equals [name]. *)
Definition listed (table : list string) (name : string) : bool :=
  existsb (fun v => String.eqb v name) table.

(** [func NewContainer(l string, i int)], returning the container and the
    end marker.  Indexing the
    fields [d] beyond their number panics: the result is [None] then.  The
    zero value of [End] is never overwritten. *)
Definition NewContainer (l : string) (i : Z) : option (Container * Z) :=
  let c := fun ty name => MkContainer ty name i 0 [] in
  let '(t, e, d) := lineType l in
  match t with
  | TD_VARIABLE =>
      name ← d !! 1%nat;
      let ty := if listed L_VARIABLES name then TC_VARIABLE else TC_UVARIABLE in
      v ← d !! 2%nat;
      Some (Container_Append (c ty name) t i (splitString v), e)
  | TD_FUNC =>
      name ← d !! 0%nat;
      header ← d !! 1%nat;
      let ty := if HasPrefix header "package_" then TC_SFUNCTION
                else if listed L_FUNCTIONS name then TC_FUNCTION
                else TC_UFUNCTION in
      Some (Container_Append (c ty name) t i [header], e)
  | TD_UNKNOWN =>
      v ← d !! 0%nat;
      Some (Container_Append (c TC_UNKNOWN UNKNOWN) t i [v], e)
  | TD_other _ =>
      v ← d !! 0%nat;
      Some (Container_Append (c TC_BLANKCOMMENT BLANK) t i [v], e)
  end.

(** ** Unparsing *)

(** [func (d *Data) String() string] *)
Definition Data_String (d : Data) : string := Value d.

(** [func (d *Data) Quote() string] *)
Definition Data_Quote (d : Data) : string := quotify (Value d).

(** [func (c *Container) UnparseType() int] *)
Definition Container_UnparseType (c : Container) : UnparseStyle :=
  match CType c with
  | TC_VARIABLE => U_VARIABLES (Name c)
  | TC_UVARIABLE => TU_OPTIONALQ
  | _ => TU_LINES
  end.

(** The loop of the [TU_MULTIPLELINES] branch: the state is the output
    and the pending line [s]. *)
Definition multiline_step (t : string) (st : list string * string) (d : Data)
    : list string * string :=
  (st.1 ++ [st.2], t +:+ Data_Quote d).

(** The loop of the [default] branch: the state is the output and the
    flag [blank]. *)
Definition lines_step (st : list string * bool) (d : Data)
    : list string * bool :=
  let l := Data_String d in
  (if negb (String.eqb l "") || negb st.2 then st.1 ++ [l] else st.1,
   String.eqb l "").

(** [func (c *Container) Lines() []string] *)
Definition Container_Lines (c : Container) : list string :=
  let out : list string := [] in
  let split := true in
  let quote := true in
  match Container_UnparseType c with
  | TU_SINGLEVAR =>
      let s := joinData (Values c) (negb split) (negb quote) in
      out ++ [Name c +:+ "=" +:+ s]
  | TU_SINGLEVARQ =>
      let s := joinData (Values c) (negb split) (negb quote) in
      out ++ [Name c +:+ "=" +:+ quotify s]
  | TU_OPTIONAL =>
      if bool_decide (len (Values c) > 1)%Z then
        let s := joinData (Values c) split quote in
        out ++ [Name c +:+ "=(" +:+ s +:+ ")"]
      else
        let s := joinData (Values c) (negb split) (negb quote) in
        out ++ [Name c +:+ "=" +:+ s]
  | TU_OPTIONALQ =>
      let s := joinData (Values c) split quote in
      if bool_decide (len (Values c) > 1)%Z then
        out ++ [Name c +:+ "=(" +:+ s +:+ ")"]
      else
        out ++ [Name c +:+ "=" +:+ s]
  | TU_MULTIPLEVAR =>
      let s := joinData (Values c) split (negb quote) in
      out ++ [Name c +:+ "=(" +:+ s +:+ ")"]
  | TU_MULTIPLEVARQ =>
      let s := joinData (Values c) split quote in
      out ++ [Name c +:+ "=(" +:+ s +:+ ")"]
  | TU_MULTIPLELINES =>
      match Values c with
      | d0 :: rest =>
          let s := Name c +:+ "=(" in
          let t := Repeat " " (RuneCountInString s) in
          let s := s +:+ Data_Quote d0 in
          let '(out, s) := foldl (multiline_step t) (out, s) rest in
          out ++ [s +:+ ")"]
      | [] => out ++ [Name c +:+ "=()"]
      end
  | TU_LINES =>
      (foldl lines_step (out, false) (Values c)).1
  end.

(** ** Sorting containers *)

(** [func (l LContainer) Less(i, j int) bool], on the two elements. *)
Definition LContainer_Less (a b : Container) : bool :=
  bool_decide (Begin a ≤ Begin b)%Z.

(** [func (p Pkgbuild) Sort() []*Container] *)
Definition Pkgbuild_Sort (p : Pkgbuild) : list Container :=
  sort_Sort LContainer_Less (containers p).

(** [func (p Pkgbuild) Order() map[*Container]*Container]: the loop
    stores [out[cs[i+1]] = cs[i]] for [i = 0, 1, ...]; a later store for
    the same container replaces the earlier one. *)
Definition Pkgbuild_Order (p : Pkgbuild) : OrderIndex :=
  let cs := Pkgbuild_Sort p in
  let out : OrderIndex := ∅ in
  if bool_decide (len cs > 1)%Z then
    foldl (fun out ci => <[ci.1 := ci.2]> out) out (zip (drop 1 cs) cs)
  else out.

(** Modelled from the spec: [getLinesByKey], which is not part of the
    available sources: the call appends to the accumulator [lines] the
    lines of the entries it emits for the key, "per-entry line
    formatting" being that of [Container.Lines]. *)
Definition getLinesByKey (p : Pkgbuild) (o : OrderIndex) (k : string)
    (lines : list string) : list string :=
  lines ++ flat_map Container_Lines (keyEntries p o k).

(** Modelled from the spec: [getLinesByType], which is not part of the
    available sources: the call appends to the accumulator [lines] the
    lines of the entries it emits for the category. *)
Definition getLinesByType (p : Pkgbuild) (o : OrderIndex) (t : ContainerType)
    (lines : list string) : list string :=
  lines ++ flat_map Container_Lines (typeEntries p o t).

(** [func (p Pkgbuild) Lines() []string], for the order [kvs] in which
    [range p] visits the keys of [p]. *)
Definition Pkgbuild_Lines_in (kvs : list (string * list Container))
    : list string :=
  let pc := foldl (fun pc kv => Pkgbuild_Insert pc kv.2) NewPkgbuild kvs in
  let o := Pkgbuild_Order pc in
  let lines : list string := [] in
  let lines := getLinesByKey pc o HEADER lines in
  let lines := getLinesByKey pc o PKGBASE lines in
  let lines := getLinesByKey pc o PKGNAME lines in
  let lines := getLinesByKey pc o PKGVER lines in
  let lines := getLinesByKey pc o PKGREL lines in
  let lines := getLinesByKey pc o EPOCH lines in
  let lines := getLinesByKey pc o PKGDESC lines in
  let lines := getLinesByKey pc o ARCH lines in
  let lines := getLinesByKey pc o URL lines in
  let lines := getLinesByKey pc o LICENSE lines in
  let lines := getLinesByKey pc o GROUPS lines in
  let lines := getLinesByKey pc o DEPENDS lines in
  let lines := getLinesByKey pc o MAKEDEPENDS lines in
  let lines := getLinesByKey pc o CHECKDEPENDS lines in
  let lines := getLinesByKey pc o OPTDEPENDS lines in
  let lines := getLinesByKey pc o PROVIDES lines in
  let lines := getLinesByKey pc o CONFLICTS lines in
  let lines := getLinesByKey pc o REPLACES lines in
  let lines := getLinesByKey pc o BACKUP lines in
  let lines := getLinesByKey pc o OPTIONS lines in
  let lines := getLinesByKey pc o INSTALL lines in
  let lines := getLinesByKey pc o CHANGELOG lines in
  let lines := getLinesByKey pc o SOURCE lines in
  let lines := getLinesByKey pc o NOEXTRACT lines in
  let lines := getLinesByKey pc o MD5SUMS lines in
  let lines := getLinesByKey pc o SHA1SUMS lines in
  let lines := getLinesByKey pc o SHA256SUMS lines in
  let lines := getLinesByType pc o TC_UVARIABLE lines in
  let lines := getLinesByKey pc o PREPARE lines in
  let lines := getLinesByKey pc o BUILD lines in
  let lines := getLinesByKey pc o CHECK lines in
  let lines := getLinesByKey pc o PACKAGE lines in
  let lines := getLinesByType pc o TC_SFUNCTION lines in
  let lines := getLinesByType pc o TC_UFUNCTION lines in
  let lines := getLinesByType pc o TC_UNKNOWN lines in
  lines.

Definition Pkgbuild_Lines (p : Pkgbuild) : list string :=
  Pkgbuild_Lines_in (map_to_list p).

End Model.

(** ** Reference descriptions used by the properties *)

(** Position [i] of a verbatim run is dropped when its text is empty and
    the text just before it is empty too. *)
Definition dropped (ls : list string) (i : nat) : bool :=
  match i with
  | O => false
  | S j => bool_decide (ls !! i = Some EmptyString)
           && bool_decide (ls !! j = Some EmptyString)
  end.

(** The texts of [ls] at the positions that are not dropped, in order. *)
Definition verbatim (ls : list string) : list string :=
  (filter (fun il => dropped ls il.1 = false) (imap pair ls)).*2.

(** The same run read from left to right: [blank] tells whether the text
    just before [ls] is empty. *)
Fixpoint collapse (blank : bool) (ls : list string) : list string :=
  match ls with
  | [] => []
  | l :: rest =>
      (if negb (String.eqb l "") || negb blank then [l] else [])
      ++ collapse (String.eqb l "") rest
  end.

(** One stage of the rendering: the entries filed under a key, or the
    entries of a category. *)
Inductive Selector : Type :=
| ByKey (k : string)
| ByType (t : ContainerType).

Definition selects (s : Selector) (c : Container) : Prop :=
  match s with
  | ByKey k => Name c = k
  | ByType t => CType c = t
  end.

#[global] Instance selects_dec s c : Decision (selects s c).
Proof. destruct s; simpl; apply _. Defined.

(** The canonical sequence of stages: the recognized variable keys, the
    unrecognized variables, the lifecycle functions, the split-package
    functions, the unrecognized functions, the unrecognized lines. *)
Definition canonical_sequence {K : Constants} : list Selector :=
  (ByKey <$> [HEADER; PKGBASE; PKGNAME; PKGVER; PKGREL; EPOCH; PKGDESC; ARCH;
              URL; LICENSE; GROUPS; DEPENDS; MAKEDEPENDS; CHECKDEPENDS;
              OPTDEPENDS; PROVIDES; CONFLICTS; REPLACES; BACKUP; OPTIONS;
              INSTALL; CHANGELOG; SOURCE; NOEXTRACT; MD5SUMS; SHA1SUMS;
              SHA256SUMS])
  ++ [ByType TC_UVARIABLE]
  ++ (ByKey <$> [PREPARE; BUILD; CHECK; PACKAGE])
  ++ [ByType TC_SFUNCTION; ByType TC_UFUNCTION; ByType TC_UNKNOWN].

(** The entries one stage emits. *)
Definition stage_entries {E : Emitters} (p : Pkgbuild) (o : OrderIndex)
    (s : Selector) : list Container :=
  match s with
  | ByKey k => keyEntries p o k
  | ByType t => typeEntries p o t
  end.

(** Every byte of the string is below [utf8.RuneSelf]. *)
Definition is_ascii (s : string) : Prop :=
  Forall (fun b => (b < 0x80)%N) (bytes s).

(** ** A sample instantiation

    Concrete tables and helpers, on which the model runs on concrete
    documents. *)

Definition sample_constants : Constants := {|
  HEADER := "<header>"; PKGBASE := "pkgbase"; PKGNAME := "pkgname";
  PKGVER := "pkgver"; PKGREL := "pkgrel"; EPOCH := "epoch";
  PKGDESC := "pkgdesc"; ARCH := "arch"; URL := "url"; LICENSE := "license";
  GROUPS := "groups"; DEPENDS := "depends"; MAKEDEPENDS := "makedepends";
  CHECKDEPENDS := "checkdepends"; OPTDEPENDS := "optdepends";
  PROVIDES := "provides"; CONFLICTS := "conflicts"; REPLACES := "replaces";
  BACKUP := "backup"; OPTIONS := "options"; INSTALL := "install";
  CHANGELOG := "changelog"; SOURCE := "source"; NOEXTRACT := "noextract";
  MD5SUMS := "md5sums"; SHA1SUMS := "sha1sums"; SHA256SUMS := "sha256sums";
  PREPARE := "prepare"; BUILD := "build"; CHECK := "check";
  PACKAGE := "package";
  UNKNOWN := "<unknown>"; BLANK := "<blank>";
  L_VARIABLES := ["pkgbase"; "pkgname"; "pkgver"; "pkgrel"; "arch";
                  "depends"; "sha256sums"];
  L_FUNCTIONS := ["prepare"; "build"; "check"; "package"];
  U_VARIABLES := fun name =>
    if String.eqb name "arch" then TU_OPTIONAL
    else if String.eqb name "pkgname" then TU_OPTIONALQ
    else if String.eqb name "depends" then TU_MULTIPLEVARQ
    else if String.eqb name "sha256sums" then TU_MULTIPLELINES
    else TU_SINGLEVAR
|}.

Definition sample_quotify (s : string) : string := "'" +:+ s +:+ "'".

Fixpoint sample_join (sep : string) (l : list string) : string :=
  match l with
  | [] => ""
  | [x] => x
  | x :: r => x +:+ sep +:+ sample_join sep r
  end.

Definition sample_joinData (vs : list Data) (split quote : bool) : string :=
  sample_join (if split then " " else "")
    ((fun d => if quote then sample_quotify (Value d) else Value d) <$> vs).

(** A classifier of lines of the shapes [name=value], [name(...] and
    anything else. *)
Definition sample_lineType (l : string) : DataType * Z * list string :=
  match index 0 "=" l, index 0 "(" l with
  | Some n, _ =>
      (TD_VARIABLE, 0%Z,
       [l; substring 0 n l; substring (S n) (String.length l - S n) l])
  | None, Some n => (TD_FUNC, 0%Z, [substring 0 n l; l])
  | None, None => (TD_UNKNOWN, 0%Z, [l])
  end.

Definition sample_helpers : Helpers := {|
  lineType := sample_lineType;
  splitString := fun s => [s];
  quotify := sample_quotify;
  joinData := sample_joinData;
  sort_Sort := fun less => merge_sort (fun a b => Is_true (less a b))
|}.

Definition begins_before (a b : Container) : Prop := (Begin a ≤ Begin b)%Z.

#[global] Instance begins_before_dec a b : Decision (begins_before a b).
Proof. unfold begins_before. apply _. Defined.

(** The sample tables, with the blank and comment groups filed under the
    header key, so that the first stage is theirs. *)
Definition document_constants : Constants := {|
  HEADER := "<blank>"; PKGBASE := "pkgbase"; PKGNAME := "pkgname";
  PKGVER := "pkgver"; PKGREL := "pkgrel"; EPOCH := "epoch";
  PKGDESC := "pkgdesc"; ARCH := "arch"; URL := "url"; LICENSE := "license";
  GROUPS := "groups"; DEPENDS := "depends"; MAKEDEPENDS := "makedepends";
  CHECKDEPENDS := "checkdepends"; OPTDEPENDS := "optdepends";
  PROVIDES := "provides"; CONFLICTS := "conflicts"; REPLACES := "replaces";
  BACKUP := "backup"; OPTIONS := "options"; INSTALL := "install";
  CHANGELOG := "changelog"; SOURCE := "source"; NOEXTRACT := "noextract";
  MD5SUMS := "md5sums"; SHA1SUMS := "sha1sums"; SHA256SUMS := "sha256sums";
  PREPARE := "prepare"; BUILD := "build"; CHECK := "check";
  PACKAGE := "package";
  UNKNOWN := "<unknown>"; BLANK := "<blank>";
  L_VARIABLES := L_VARIABLES (Constants := sample_constants);
  L_FUNCTIONS := L_FUNCTIONS (Constants := sample_constants);
  U_VARIABLES := U_VARIABLES (Constants := sample_constants)
|}.

(** Sample stage helpers: a key stage emits the entries filed under the
    key and a category stage the entries of the category, by increasing
    first line, and nothing else. *)
#[program] Definition sample_emitters : Emitters := {|
  keyEntries := fun p _ k => merge_sort begins_before (default [] (p !! k));
  typeEntries := fun p _ t =>
    merge_sort begins_before (filter (fun c => CType c = t) (containers p))
|}.
Next Obligation.
  intros p o k. apply Permutation_submseteq.
  symmetry. apply merge_sort_Permutation.
Qed.
Next Obligation.
  intros p o t. apply Permutation_submseteq.
  symmetry. apply merge_sort_Permutation.
Qed.

(** The blanks in front of a line. *)
Fixpoint skip_blanks (l : string) : string :=
  match l with
  | String " " rest => skip_blanks rest
  | _ => l
  end.

(** A classifier that accepts an indented function header: the name is
    what stands between the indentation and the parenthesis, the header
    text is the line as it is. *)
Definition indented_lineType (l : string) : DataType * Z * list string :=
  let t := skip_blanks l in
  match index 0 "(" t with
  | Some n => (TD_FUNC, 0%Z, [substring 0 n t; l])
  | None => (TD_UNKNOWN, 0%Z, [l])
  end.

Definition indented_helpers : Helpers := {|
  lineType := indented_lineType;
  splitString := fun s => [s];
  quotify := sample_quotify;
  joinData := sample_joinData;
  sort_Sort := fun less => merge_sort (fun a b => Is_true (less a b))
|}.

Definition sample_data (v : string) : Data := NewData TD_VARIABLE v 0.

Definition sample_var (ty : ContainerType) (name : string) (line : Z)
    (vs : list string) : Container :=
  MkContainer ty name line 0 (sample_data <$> vs).

(** A document with [pkgrel] before [pkgver]. *)
Definition sample_doc : Pkgbuild :=
  Pkgbuild_Insert NewPkgbuild
    [sample_var TC_VARIABLE "pkgrel" 0 ["1"];
     sample_var TC_VARIABLE "pkgver" 1 ["2.0"];
     sample_var TC_UVARIABLE "_extra" 2 ["a"; "b"]].

(** A recipe with a [pkgver] variable, a [pkgrel] variable and a
    [pkgver] function. *)
Definition function_doc : Pkgbuild :=
  Pkgbuild_Insert NewPkgbuild
    [sample_var TC_VARIABLE "pkgver" 0 ["1.0"];
     sample_var TC_VARIABLE "pkgrel" 1 ["1"];
     MkContainer TC_UFUNCTION "pkgver" 2 0 [NewData TD_FUNC "pkgver() {" 2]].

(** A comment in front of a [pkgver]. *)
Definition comment_doc : Pkgbuild :=
  Pkgbuild_Insert NewPkgbuild
    [MkContainer TC_BLANKCOMMENT "<blank>" 0 0
       [NewData (TD_other 0) "# Maintainer" 0];
     sample_var TC_VARIABLE "pkgver" 1 ["2.0"]].

(** The document after [p[k][i].Set(idx, v)]: the containers of a document
    are shared by pointer, so the document holds the receiver as the call
    leaves it. *)
Definition Pkgbuild_Set (p : Pkgbuild) (k : string) (i : nat) (idx : Z)
    (v : string) : Pkgbuild :=
  alter (alter (fun c => (Container_Set c idx v).2) i) k p.

(** The container at index [i] under the name [k]. *)
Definition container_at (p : Pkgbuild) (k : string) (i : nat)
    : option Container :=
  p !! k ≫= (.!! i).

(** ** String representation (for debug) *)

(** The line feed. *)
Definition LF : string := String "010"%char EmptyString.

(** [func (c *Container) StringWithoutName() string] *)
Definition Container_StringWithoutName (c : Container) : string :=
  foldl (fun s d =>
           let s := if negb (String.eqb s "") then s +:+ LF else s in
           s +:+ " - '" +:+ Data_String d +:+ "'")
        EmptyString (Values c).

(** [func (c *Container) String() string] *)
Definition Container_String (c : Container) : string :=
  Name c +:+ LF +:+ Container_StringWithoutName c.

(** The number of fields [NewContainer] reads for a line type. *)
Definition fields_read (t : DataType) : nat :=
  match t with
  | TD_VARIABLE => 3
  | TD_FUNC => 2
  | _ => 1
  end.

(** ** The version of a remote PKGBUILD *)

(** [strings.Split(s, "\n")]: the pieces between the line feeds, one more
    than there are line feeds. *)
Fixpoint Split_LF (s : string) : list string :=
  match s with
  | EmptyString => [EmptyString]
  | String a rest =>
      if Ascii.eqb a "010" then EmptyString :: Split_LF rest
      else match Split_LF rest with
           | piece :: pieces => String a piece :: pieces
           | [] => [String a EmptyString]
           end
  end.

(** The slice [l[n:]], for [n] within the string. *)
Fixpoint slice_from (n : nat) (l : string) : string :=
  match n, l with
  | O, _ => l
  | S n', String _ rest => slice_from n' rest
  | S _, EmptyString => EmptyString
  end.

Section RemoteVersion.

(** [strings.TrimSpace], and the text [Translate(UNKNOWN_VERSION)]. *)
Variable TrimSpace : string → string.
Variable unknown_version : string.

(** The loop of [remoteVersion] from the state [pkgver], [pkgrel] on: the
    version at which it returns, or [None] when the lines run out. *)
Fixpoint remoteVersion_loop (pkgver pkgrel : string) (lines : list string)
    : option string :=
  match lines with
  | [] => None
  | l :: rest =>
      let l := TrimSpace l in
      let '(pkgver, pkgrel) :=
        if HasPrefix l "pkgver=" then (slice_from 7 l, pkgrel)
        else if HasPrefix l "pkgrel=" then (pkgver, slice_from 7 l)
        else (pkgver, pkgrel) in
      if negb (String.eqb pkgver "") && negb (String.eqb pkgrel "")
      then Some (pkgver +:+ "-" +:+ pkgrel)
      else remoteVersion_loop pkgver pkgrel rest
  end.

(** [func remoteVersion(app string) (v string, ok bool)], as a function of
    the answer of [launchRequest]: the body received, or [None] for an
    error. *)
Definition remoteVersion (answer : option string) : string * bool :=
  match answer with
  | Some r =>
      match remoteVersion_loop "" "" (Split_LF r) with
      | Some v => (v, true)
      | None => (unknown_version, false)
      end
  | None => (unknown_version, false)
  end.

End RemoteVersion.

(** Two consecutive texts of [ls] are empty. *)
Definition adjacent_blanks (ls : list string) : Prop :=
  ∃ i, ls !! i = Some EmptyString ∧ ls !! S i = Some EmptyString.

(** * Properties *)

(** ** Mutation: [Set], [Insert], [Remove] *)

Lemma len_nonneg {A} (l : list A) : (0 ≤ len l)%Z.
Proof. unfold len. lia. Qed.

Lemma Container_Set_in_range c idx v :
  (0 ≤ idx < len (Values c))%Z →
  Container_Set c idx v =
    (true, with_Values c
             (if bool_decide (v = EmptyString)
              then delete (Z.to_nat idx) (Values c)
              else alter (fun d => with_Value d v) (Z.to_nat idx) (Values c))).
Proof.
  intros Hr. unfold Container_Set.
  rewrite bool_decide_eq_false_2 by lia.
  case_bool_decide; [|done].
  replace (Z.to_nat (idx + 1)) with (S (Z.to_nat idx)) by lia.
  by rewrite <- delete_take_drop.
Qed.

Lemma Container_Set_out_of_range c idx v :
  (idx < 0 ∨ len (Values c) ≤ idx)%Z → Container_Set c idx v = (false, c).
Proof.
  intros Hr. unfold Container_Set. by rewrite bool_decide_eq_true_2 by lia.
Qed.

Lemma Container_Set_result c idx v :
  (Container_Set c idx v).1 = bool_decide (0 ≤ idx < len (Values c))%Z.
Proof.
  case_bool_decide as Hr.
  - by rewrite Container_Set_in_range.
  - rewrite Container_Set_out_of_range; [done|lia].
Qed.

(** C8: [Set] with an index in range and a non-empty text replaces the
    text of the value at that index (nothing else changes) and returns
    true; with an empty text it deletes that value, so that the sequence
    is one shorter, and returns true; with an index out of range it
    returns false. *)
Theorem Container_Set_spec c idx v :
  let r := Container_Set c idx v in
  ((0 ≤ idx < len (Values c))%Z →
     r.1 = true
     ∧ (CType r.2, Name r.2, Begin r.2, End_ r.2)
       = (CType c, Name c, Begin c, End_ c)
     ∧ (v ≠ EmptyString →
          length (Values r.2) = length (Values c)
          ∧ (∃ d, Values c !! Z.to_nat idx = Some d
                  ∧ Values r.2 !! Z.to_nat idx
                    = Some (NewData (DType d) v (Line d)))
          ∧ ∀ j, j ≠ Z.to_nat idx → Values r.2 !! j = Values c !! j)
     ∧ (v = EmptyString →
          Values r.2 = delete (Z.to_nat idx) (Values c)
          ∧ S (length (Values r.2)) = length (Values c)
          ∧ ∀ j, Values r.2 !! j
                 = Values c !! (if decide (j < Z.to_nat idx) then j else S j)))
  ∧ ((idx < 0 ∨ len (Values c) ≤ idx)%Z → r.1 = false).
Proof.
  intros r. subst r. split.
  - intros Hr. rewrite Container_Set_in_range by done. simpl.
    assert (Hlt : Z.to_nat idx < length (Values c)) by (unfold len in Hr; lia).
    split; [done|]. split; [done|]. split.
    + intros Hv. rewrite bool_decide_eq_false_2 by done.
      destruct (lookup_lt_is_Some_2 _ _ Hlt) as [d Hd].
      split; [by rewrite length_alter|]. split.
      * exists d. split; [done|]. by rewrite list_lookup_alter_eq, Hd.
      * intros j Hj. by rewrite list_lookup_alter_ne.
    + intros ->. rewrite bool_decide_eq_true_2 by done.
      split; [done|]. split.
      * rewrite length_delete by (by apply lookup_lt_is_Some_2). lia.
      * intros j. case_decide.
        -- by rewrite list_lookup_delete_lt.
        -- rewrite list_lookup_delete_ge by lia. done.
  - intros Hr. by rewrite Container_Set_out_of_range.
Qed.

(** Witness of C8 on a container of two values. *)
Lemma Container_Set_spec_witness :
  (Container_Set (sample_var TC_UVARIABLE "x" 0 ["a"; "b"]) 1 "c").1 = true
  ∧ (Container_Set (sample_var TC_UVARIABLE "x" 0 ["a"; "b"]) 2 "c").1 = false.
Proof.
  pose proof (Container_Set_spec (sample_var TC_UVARIABLE "x" 0 ["a"; "b"]) 1 "c")
    as [H1 _].
  pose proof (Container_Set_spec (sample_var TC_UVARIABLE "x" 0 ["a"; "b"]) 2 "c")
    as [_ H2].
  split.
  - apply H1. vm_compute. split; [discriminate|reflexivity].
  - apply H2. right. vm_compute. discriminate.
Defined.

Lemma Pkgbuild_Remove_result p k i :
  (Pkgbuild_Remove p k i).1 = true
  ↔ ∃ lc, p !! k = Some lc ∧ (0 ≤ i < len lc)%Z.
Proof.
  unfold Pkgbuild_Remove. destruct (p !! k) as [lc|] eqn:Hk.
  - case_bool_decide as Hr; simpl.
    + split; [|done]. intros _. exists lc. split; [done|lia].
    + split; [done|]. intros (lc' & [= <-] & Hr'). lia.
  - simpl. split; [done|]. by intros (lc & ? & _).
Qed.

(** C10: a [Remove] that returns false (name absent, or index out of
    range) leaves the document as it was, and a [Set] that returns false
    (index out of range) leaves the container as it was. *)
Theorem failed_mutation_unchanged :
  (∀ p k i,
     (Pkgbuild_Remove p k i).1 = false →
     (Pkgbuild_Remove p k i).2 = p
     ∧ (p !! k = None ∨ ∃ lc, p !! k = Some lc ∧ (i < 0 ∨ len lc ≤ i)%Z))
  ∧ (∀ p k i,
       (p !! k = None ∨ ∃ lc, p !! k = Some lc ∧ (i < 0 ∨ len lc ≤ i)%Z) →
       Pkgbuild_Remove p k i = (false, p))
  ∧ (∀ c idx v,
       (Container_Set c idx v).1 = false →
       (Container_Set c idx v).2 = c ∧ (idx < 0 ∨ len (Values c) ≤ idx)%Z)
  ∧ (∀ c idx v,
       (idx < 0 ∨ len (Values c) ≤ idx)%Z → Container_Set c idx v = (false, c)).
Proof.
  split; [|split; [|split]].
  - intros p k i. unfold Pkgbuild_Remove.
    destruct (p !! k) as [lc|] eqn:Hk; [|by auto].
    case_bool_decide as Hr; simpl; [done|]. intros _. split; [done|].
    right. exists lc. split; [done|lia].
  - intros p k i [Hk|(lc & Hk & Hr)]; unfold Pkgbuild_Remove; rewrite Hk.
    + done.
    + by rewrite bool_decide_eq_false_2 by lia.
  - intros c idx v. rewrite Container_Set_result.
    intros Hf%bool_decide_eq_false.
    assert (Ho : (idx < 0 ∨ len (Values c) ≤ idx)%Z) by lia.
    by rewrite Container_Set_out_of_range.
  - intros c idx v. apply Container_Set_out_of_range.
Qed.

(** Witness of C10: removing under an absent name, removing beyond the
    last container, and setting beyond the last value. *)
Lemma failed_mutation_unchanged_witness :
  (Pkgbuild_Remove sample_doc "pkgdesc" 0).2 = sample_doc
  ∧ (Pkgbuild_Remove sample_doc "pkgver" 1).2 = sample_doc
  ∧ (Container_Set (sample_var TC_VARIABLE "pkgver" 1 ["2.0"]) 1 "3").2
    = sample_var TC_VARIABLE "pkgver" 1 ["2.0"].
Proof.
  destruct failed_mutation_unchanged as (HR & _ & HS & _).
  split; [|split].
  - apply (HR sample_doc "pkgdesc" 0%Z). vm_compute. reflexivity.
  - apply (HR sample_doc "pkgver" 1%Z). vm_compute. reflexivity.
  - apply (HS (sample_var TC_VARIABLE "pkgver" 1 ["2.0"]) 1%Z "3").
    vm_compute. reflexivity.
Defined.

Lemma named_cons k c cont :
  named k (c :: cont) = if decide (Name c = k) then c :: named k cont
                        else named k cont.
Proof. unfold named. by rewrite filter_cons. Qed.

Lemma named_app k l1 l2 : named k (l1 ++ l2) = named k l1 ++ named k l2.
Proof. unfold named. by rewrite filter_app. Qed.

Lemma Pkgbuild_Insert1_lookup p c k :
  Pkgbuild_Insert1 p c !! k =
    if decide (Name c = k) then Some (default [] (p !! k) ++ [c]) else p !! k.
Proof.
  unfold Pkgbuild_Insert1. case_decide as Hk.
  - subst k. destruct (p !! Name c) as [lc|]; by rewrite lookup_insert_eq.
  - destruct (p !! Name c) as [lc|]; by rewrite lookup_insert_ne.
Qed.

Lemma Pkgbuild_Insert_lookup p cont k :
  default [] (Pkgbuild_Insert p cont !! k) = default [] (p !! k) ++ named k cont
  ∧ (Pkgbuild_Insert p cont !! k = None ↔ p !! k = None ∧ named k cont = []).
Proof.
  unfold Pkgbuild_Insert. revert p.
  induction cont as [|c cont IH]; intros p; simpl.
  - rewrite app_nil_r. tauto.
  - destruct (IH (Pkgbuild_Insert1 p c)) as [IH1 IH2].
    rewrite IH1, IH2, named_cons, Pkgbuild_Insert1_lookup.
    case_decide; simpl.
    + rewrite <- app_assoc. split; [done|]. split; intros [? ?]; done.
    + tauto.
Qed.

Lemma keyed_elem p k lc c :
  keyed p → p !! k = Some lc → c ∈ lc → Name c = k.
Proof. intros Hp. apply Hp. Qed.

Lemma named_elem k cont c : c ∈ named k cont ↔ c ∈ cont ∧ Name c = k.
Proof. unfold named. rewrite list_elem_of_filter. tauto. Qed.

Lemma Pkgbuild_Insert_keyed p cont : keyed p → keyed (Pkgbuild_Insert p cont).
Proof.
  intros Hp k lc c Hk Hc.
  destruct (Pkgbuild_Insert_lookup p cont k) as [Hl _].
  rewrite Hk in Hl. simpl in Hl. subst lc.
  apply elem_of_app in Hc as [Hc|Hc].
  - destruct (p !! k) as [lc|] eqn:Hpk; simpl in Hc.
    + by eapply Hp.
    + by apply elem_of_nil in Hc.
  - by apply named_elem in Hc as [_ ?].
Qed.

Lemma Pkgbuild_Insert_batches (batches : list (list Container)) p :
  foldl Pkgbuild_Insert p batches = Pkgbuild_Insert p (concat batches).
Proof.
  revert p. induction batches as [|b bs IH]; intros p; simpl; [done|].
  rewrite IH. unfold Pkgbuild_Insert. by rewrite foldl_app.
Qed.

(** C7: [Insert] appends each container to the list filed under its own
    name, creating the list when the name is new; the containers already
    filed under a name stay, in their order, in front of the new ones,
    which follow in insertion order; a key exists afterwards exactly when
    it existed or a container of that name was inserted.  Hence a document
    whose containers are filed under their own names stays so, and after
    any sequence of [Insert]s into a new document the list under each name
    consists of the inserted containers of that name, in insertion
    order. *)
Theorem Pkgbuild_Insert_spec :
  (∀ p cont k,
     default [] (Pkgbuild_Insert p cont !! k)
     = default [] (p !! k) ++ named k cont
     ∧ (Pkgbuild_Insert p cont !! k = None
        ↔ p !! k = None ∧ named k cont = []))
  ∧ (∀ p cont, keyed p → keyed (Pkgbuild_Insert p cont))
  ∧ (∀ batches : list (list Container),
       let p := foldl Pkgbuild_Insert NewPkgbuild batches in
       keyed p
       ∧ ∀ k, default [] (p !! k) = named k (concat batches)
              ∧ (∀ c, c ∈ concat batches → Name c = k → is_Some (p !! k))).
Proof.
  split; [|split].
  - apply Pkgbuild_Insert_lookup.
  - apply Pkgbuild_Insert_keyed.
  - intros batches p. subst p. rewrite Pkgbuild_Insert_batches. split.
    + apply Pkgbuild_Insert_keyed. intros k lc c Hk.
      unfold NewPkgbuild in Hk. by rewrite lookup_empty in Hk.
    + intros k.
      destruct (Pkgbuild_Insert_lookup NewPkgbuild (concat batches) k)
        as [Hl Hn].
      split.
      * rewrite Hl. unfold NewPkgbuild. by rewrite lookup_empty.
      * intros c Hc Hname. apply not_eq_None_Some. intros HN.
        apply Hn in HN as [_ HN].
        assert (Hin : c ∈ named k (concat batches)) by by apply named_elem.
        rewrite HN in Hin. by apply elem_of_nil in Hin.
Qed.

(** Witness of C7: the sample document is filed under its own names, and
    stays so when a second [pkgver] is inserted. *)
Lemma Pkgbuild_Insert_spec_witness :
  keyed (Pkgbuild_Insert NewPkgbuild
           [sample_var TC_VARIABLE "pkgver" 5 ["3.0"]]).
Proof.
  destruct Pkgbuild_Insert_spec as (_ & HK & _).
  apply (HK NewPkgbuild [sample_var TC_VARIABLE "pkgver" 5 ["3.0"]]).
  intros k lc c Hk. unfold NewPkgbuild in Hk.
  rewrite lookup_empty in Hk. discriminate.
Defined.

(** ** Rendering of one container *)

Lemma eqb_empty (l : string) :
  String.eqb l "" = bool_decide (l = EmptyString).
Proof.
  case_bool_decide as Hl.
  - by apply String.eqb_eq.
  - by apply String.eqb_neq.
Qed.

Lemma dropped_middle pre l rest :
  dropped (pre ++ l :: rest) (length pre)
  = bool_decide (l = EmptyString) && bool_decide (last pre = Some EmptyString).
Proof.
  destruct pre as [|x pre _] using rev_ind.
  - simpl. by rewrite andb_false_r.
  - rewrite length_app, Nat.add_1_r, last_snoc. unfold dropped.
    assert (H1 : ((pre ++ [x]) ++ l :: rest) !! S (length pre) = Some l).
    { apply list_lookup_middle. rewrite length_app. simpl. lia. }
    assert (H2 : ((pre ++ [x]) ++ l :: rest) !! length pre = Some x).
    { rewrite <- app_assoc. by apply list_lookup_middle. }
    rewrite H1, H2.
    f_equal; apply bool_decide_ext; split; congruence.
Qed.

Lemma collapse_positions pre ls :
  collapse (bool_decide (last pre = Some EmptyString)) ls
  = (filter (fun il => dropped (pre ++ ls) il.1 = false)
       (imap (fun i x => (length pre + i, x)) ls)).*2.
Proof.
  revert pre. induction ls as [|l rest IH]; intros pre; [done|].
  rewrite imap_cons, filter_cons. simpl fst.
  rewrite Nat.add_0_r, dropped_middle. simpl collapse.
  specialize (IH (pre ++ [l])).
  rewrite last_snoc, <- app_assoc in IH. simpl in IH.
  rewrite eqb_empty.
  replace (bool_decide (Some l = Some EmptyString))
    with (bool_decide (l = EmptyString)) in IH
    by (apply bool_decide_ext; naive_solver).
  rewrite IH.
  rewrite (imap_ext ((fun i x => (length pre + i, x)) ∘ S)
             (fun i x => (length (pre ++ [l]) + i, x)))
    by (intros i x _; simpl; rewrite length_app; simpl; f_equal; lia).
  destruct (bool_decide (l = EmptyString)),
    (bool_decide (last pre = Some EmptyString)); simpl;
    try case_decide; done.
Qed.

Lemma collapse_verbatim ls : collapse false ls = verbatim ls.
Proof. apply (collapse_positions [] ls). Qed.

Lemma collapse_after_blank ls x :
  collapse true ls !! 0 = Some x → x ≠ EmptyString.
Proof.
  induction ls as [|l rest IH]; simpl; [done|].
  rewrite eqb_empty. case_bool_decide as Hl; simpl.
  - subst l. apply IH.
  - intros [= <-]. done.
Qed.

Lemma collapse_single_blank blank ls i :
  collapse blank ls !! i = Some EmptyString →
  collapse blank ls !! S i ≠ Some EmptyString.
Proof.
  revert blank i. induction ls as [|l rest IH]; intros blank i; simpl; [done|].
  rewrite eqb_empty.
  destruct (negb (bool_decide (l = EmptyString)) || negb blank); simpl.
  - destruct i as [|i]; simpl.
    + intros [= ->]. rewrite bool_decide_eq_true_2 by done.
      intros Hx. by apply collapse_after_blank in Hx.
    + apply IH.
  - apply IH.
Qed.

Lemma Repeat_nat_spaces n :
  Repeat_nat " " n = string_of_list_ascii (replicate n " "%char).
Proof.
  induction n as [|n IH]; [done|].
  change (String " " (Repeat_nat " " n)
          = String " " (string_of_list_ascii (replicate n " "%char))).
  by rewrite IH.
Qed.

Lemma Repeat_nat_length n : String.length (Repeat_nat " " n) = n.
Proof.
  induction n as [|n IH]; [done|].
  change (S (String.length (Repeat_nat " " n)) = S n). by rewrite IH.
Qed.

Lemma bytes_append s1 s2 : bytes (s1 +:+ s2) = bytes s1 ++ bytes s2.
Proof.
  unfold bytes. induction s1 as [|a s1 IH]; simpl; [done|].
  unfold fmap in IH. by rewrite IH.
Qed.

Lemma bytes_length s : length (bytes s) = String.length s.
Proof.
  unfold bytes. rewrite length_fmap.
  induction s as [|a s IH]; simpl; [done|]. by rewrite IH.
Qed.

Lemma rune_count_ascii fuel bs :
  Forall (fun b => (b < 0x80)%N) bs → length bs ≤ fuel →
  rune_count fuel bs = len bs.
Proof.
  revert fuel. induction bs as [|b bs IH]; intros fuel Ha Hf.
  - by destruct fuel.
  - destruct fuel as [|fuel]; simpl in Hf; [lia|].
    apply Forall_cons in Ha as [Hb Ha].
    cbn [rune_count rune_size].
    assert ((b <? 0x80)%N = true) as -> by by apply N.ltb_lt.
    cbn [drop]. rewrite IH by (done || lia). unfold len. simpl. lia.
Qed.

(** On a string of ASCII characters, [utf8.RuneCountInString] is the
    length. *)
Lemma RuneCountInString_ascii s :
  is_ascii s → RuneCountInString s = Z.of_nat (String.length s).
Proof.
  intros Ha. unfold RuneCountInString.
  rewrite rune_count_ascii; [|done|by rewrite bytes_length].
  unfold len. by rewrite bytes_length.
Qed.

Section Rendering.
Context {K : Constants} {F : Helpers}.

Lemma lines_step_foldl vs out blank :
  (foldl lines_step (out, blank) vs).1 = out ++ collapse blank (Value <$> vs).
Proof.
  revert out blank. induction vs as [|d vs IH]; intros out blank; simpl.
  - by rewrite app_nil_r.
  - unfold lines_step at 2. simpl. rewrite IH. unfold Data_String.
    destruct (negb (Value d =? "")%string || negb blank); simpl;
      [by rewrite <- app_assoc|done].
Qed.

Lemma Container_Lines_TU_LINES c :
  Container_UnparseType c = TU_LINES →
  Container_Lines c = collapse false (Value <$> Values c).
Proof.
  intros Hs. unfold Container_Lines. rewrite Hs. by rewrite lines_step_foldl.
Qed.

(** C6: every category other than the two variable categories is
    rendered with the verbatim style, and a container rendered with that
    style yields the texts of its values, one line each and in their
    order, without the values whose text is empty and that directly follow
    a value whose text is empty; no two consecutive output lines are both
    empty. *)
Theorem Container_Lines_verbatim c :
  Container_UnparseType c = TU_LINES →
  Container_Lines c = verbatim (Value <$> Values c)
  ∧ (∀ i, Container_Lines c !! i = Some EmptyString →
          Container_Lines c !! S i ≠ Some EmptyString)
  ∧ ∀ c' : Container,
      CType c' ≠ TC_VARIABLE → CType c' ≠ TC_UVARIABLE →
      Container_UnparseType c' = TU_LINES.
Proof.
  intros Hs. rewrite Container_Lines_TU_LINES by done. split; [|split].
  - apply collapse_verbatim.
  - apply collapse_single_blank.
  - intros c' Hv Hu. unfold Container_UnparseType. by destruct (CType c').
Qed.

(** C3: a recognized variable of a collapse-to-scalar style renders as
    one line [name=(...)] around its joined values when it has more than
    one value, and as one line [name=...] without parentheses when it has
    exactly one; with an always-parenthesized style the parentheses are
    there whatever the number of values. *)
Theorem Container_Lines_collapse c :
  CType c = TC_VARIABLE →
  (U_VARIABLES (Name c) = TU_OPTIONAL →
     ((len (Values c) > 1)%Z →
        Container_Lines c
        = [Name c +:+ "=(" +:+ joinData (Values c) true true +:+ ")"])
     ∧ (len (Values c) = 1%Z →
          Container_Lines c
          = [Name c +:+ "=" +:+ joinData (Values c) false false]))
  ∧ (U_VARIABLES (Name c) = TU_OPTIONALQ →
       ((len (Values c) > 1)%Z →
          Container_Lines c
          = [Name c +:+ "=(" +:+ joinData (Values c) true true +:+ ")"])
       ∧ (len (Values c) = 1%Z →
            Container_Lines c
            = [Name c +:+ "=" +:+ joinData (Values c) true true]))
  ∧ (U_VARIABLES (Name c) = TU_MULTIPLEVAR →
       Container_Lines c
       = [Name c +:+ "=(" +:+ joinData (Values c) true false +:+ ")"])
  ∧ (U_VARIABLES (Name c) = TU_MULTIPLEVARQ →
       Container_Lines c
       = [Name c +:+ "=(" +:+ joinData (Values c) true true +:+ ")"]).
Proof.
  intros Ht.
  assert (Hu : Container_UnparseType c = U_VARIABLES (Name c))
    by (unfold Container_UnparseType; by rewrite Ht).
  unfold Container_Lines. rewrite Hu.
  split; [|split; [|split]]; intros ->; simpl; try done.
  - split; intros Hn.
    + by rewrite bool_decide_eq_true_2.
    + rewrite bool_decide_eq_false_2; [done|lia].
  - split; intros Hn.
    + by rewrite bool_decide_eq_true_2.
    + rewrite bool_decide_eq_false_2; [done|lia].
Qed.

Lemma multiline_step_foldl t rest out s :
  let r := foldl (multiline_step t) (out, s) rest in
  r.1 ++ [r.2] = out ++ s :: ((fun d => t +:+ Data_Quote d) <$> rest).
Proof.
  revert out s. induction rest as [|d rest IH]; intros out s; simpl; [done|].
  unfold multiline_step at 2. simpl. rewrite IH. by rewrite <- app_assoc.
Qed.

(** C4: a container rendered one value per line with [n >= 1] values
    yields [n] lines: line [i] carries the quoted value [i], after the
    opening [name=(] on the first line and after as many spaces as the
    opening has characters on the others, and the last line ends with the
    closing parenthesis; without values it yields the line [name=()]. *)
Theorem Container_Lines_multiline c :
  Container_UnparseType c = TU_MULTIPLELINES →
  let opening := Name c +:+ "=(" in
  let pad := Repeat " " (RuneCountInString opening) in
  (Values c = [] → Container_Lines c = [Name c +:+ "=()"])
  ∧ (Values c ≠ [] → length (Container_Lines c) = length (Values c))
  ∧ (∀ i d, Values c !! i = Some d →
       let line := (if decide (i = 0) then opening else pad)
                   +:+ quotify (Value d) in
       Container_Lines c !! i
       = Some (if decide (S i = length (Values c)) then line +:+ ")"
               else line))
  ∧ pad = string_of_list_ascii
            (replicate (Z.to_nat (RuneCountInString opening)) " "%char)
  ∧ (is_ascii (Name c) → String.length pad = String.length opening).
Proof.
  intros Hs opening pad. unfold Container_Lines. rewrite Hs.
  fold opening. fold pad.
  split; [|split; [|split; [|split]]].
  - by intros ->.
  - destruct (Values c) as [|d0 rest]; [done|]. intros _. simpl.
    pose proof (multiline_step_foldl pad rest [] (opening +:+ Data_Quote d0))
      as Hf.
    destruct (foldl _ _ rest) as [o s']. simpl in Hf.
    apply (f_equal length) in Hf.
    rewrite length_app in *. simpl in *. rewrite length_fmap in Hf. lia.
  - intros i d Hd.
    set (line := (if decide (i = 0) then opening else pad)
                 +:+ quotify (Value d)).
    destruct (Values c) as [|d0 rest]; [done|]. simpl.
    pose proof (multiline_step_foldl pad rest [] (opening +:+ Data_Quote d0))
      as Hf.
    destruct (foldl _ _ rest) as [o s']. simpl in Hf.
    assert (Hlen : length o = length rest).
    { apply (f_equal length) in Hf.
      rewrite length_app in Hf. simpl in Hf. rewrite length_fmap in Hf. lia. }
    assert (Hline : ((opening +:+ Data_Quote d0)
                     :: ((fun d => pad +:+ Data_Quote d) <$> rest)) !! i
                    = Some line).
    { subst line. destruct i as [|i]; simpl in *.
      - by injection Hd as ->.
      - by rewrite list_lookup_fmap, Hd. }
    rewrite <- Hf in Hline.
    apply lookup_lt_Some in Hd as Hi. simpl in Hi.
    destruct (decide (i = length o)) as [->|Hne].
    + rewrite list_lookup_middle in Hline by done.
      injection Hline as ->.
      rewrite list_lookup_middle by done.
      by rewrite decide_True by lia.
    + rewrite lookup_app_l in Hline by lia.
      rewrite lookup_app_l by lia.
      by rewrite decide_False by lia.
  - apply Repeat_nat_spaces.
  - intros Ha. unfold pad, Repeat. rewrite Repeat_nat_length.
    rewrite RuneCountInString_ascii; [lia|].
    unfold is_ascii, opening. rewrite bytes_append.
    apply Forall_app. split; [done|].
    repeat constructor.
Qed.

Lemma Container_Lines_empty c :
  Values c = [] →
  Container_Lines c =
    match Container_UnparseType c with
    | TU_SINGLEVAR => [Name c +:+ "=" +:+ joinData [] false false]
    | TU_SINGLEVARQ => [Name c +:+ "=" +:+ quotify (joinData [] false false)]
    | TU_OPTIONAL => [Name c +:+ "=" +:+ joinData [] false false]
    | TU_OPTIONALQ => [Name c +:+ "=" +:+ joinData [] true true]
    | TU_MULTIPLEVAR => [Name c +:+ "=(" +:+ joinData [] true false +:+ ")"]
    | TU_MULTIPLEVARQ => [Name c +:+ "=(" +:+ joinData [] true true +:+ ")"]
    | TU_MULTIPLELINES => [Name c +:+ "=()"]
    | TU_LINES => []
    end.
Proof.
  intros Hv. unfold Container_Lines. rewrite Hv.
  by destruct (Container_UnparseType c).
Qed.


End Rendering.

(** Witness of C3: [arch] collapses to a scalar, [depends] keeps its
    parentheses. *)
Lemma Container_Lines_collapse_witness :
  @Container_Lines sample_constants sample_helpers
     (sample_var TC_VARIABLE "arch" 0 ["x86_64"]) = ["arch=x86_64"]
  ∧ @Container_Lines sample_constants sample_helpers
      (sample_var TC_VARIABLE "arch" 0 ["i686"; "x86_64"])
    = ["arch=('i686' 'x86_64')"]
  ∧ @Container_Lines sample_constants sample_helpers
      (sample_var TC_VARIABLE "depends" 0 ["glibc"]) = ["depends=('glibc')"].
Proof.
  split; [|split].
  - destruct (Container_Lines_collapse (K:=sample_constants)
                (F:=sample_helpers)
                (sample_var TC_VARIABLE "arch" 0 ["x86_64"]) eq_refl)
      as (Ho & _).
    destruct (Ho eq_refl) as [_ H1]. rewrite H1; reflexivity.
  - destruct (Container_Lines_collapse (K:=sample_constants)
                (F:=sample_helpers)
                (sample_var TC_VARIABLE "arch" 0 ["i686"; "x86_64"]) eq_refl)
      as (Ho & _).
    destruct (Ho eq_refl) as [Hn _]. rewrite Hn; reflexivity.
  - destruct (Container_Lines_collapse (K:=sample_constants)
                (F:=sample_helpers)
                (sample_var TC_VARIABLE "depends" 0 ["glibc"]) eq_refl)
      as (_ & _ & _ & Hq).
    rewrite Hq; reflexivity.
Defined.

(** Witness of C4: three checksums. *)
Lemma Container_Lines_multiline_witness :
  length (@Container_Lines sample_constants sample_helpers
            (sample_var TC_VARIABLE "sha256sums" 0 ["a"; "b"; "c"])) = 3
  ∧ @Container_Lines sample_constants sample_helpers
      (sample_var TC_VARIABLE "sha256sums" 0 ["a"; "b"; "c"]) !! 2
    = Some "            'c')".
Proof.
  destruct (Container_Lines_multiline (K:=sample_constants)
              (F:=sample_helpers)
              (sample_var TC_VARIABLE "sha256sums" 0 ["a"; "b"; "c"]) eq_refl)
    as (_ & Hlen & Hline & _).
  split.
  - rewrite Hlen; [reflexivity|discriminate].
  - rewrite (Hline 2 (sample_data "c") eq_refl). reflexivity.
Defined.



(** Witness of C6: runs of blank lines in a function body. *)
Lemma Container_Lines_verbatim_witness :
  @Container_Lines sample_constants sample_helpers
     (MkContainer TC_UFUNCTION "f" 0 0
        (sample_data <$> ["f() {"; ""; ""; "  true"; ""; ""; ""; "}"]))
  = ["f() {"; ""; "  true"; ""; "}"].
Proof.
  destruct (Container_Lines_verbatim (K:=sample_constants)
              (F:=sample_helpers)
              (MkContainer TC_UFUNCTION "f" 0 0
                 (sample_data <$> ["f() {"; ""; ""; "  true"; ""; ""; ""; "}"]))
              eq_refl) as [Hv _].
  rewrite Hv. reflexivity.
Defined.

(** The model at work: a name that is not ASCII is measured in
    characters, not bytes. *)
Example RuneCountInString_sample :
  RuneCountInString "clé=(" = 5%Z ∧ String.length "clé=(" = 6.
Proof. split; reflexivity. Qed.

(** ** Construction of a container from a function header *)

Lemma prefix_before_paren pre name rest :
  "("%char ∉ list_ascii_of_string pre →
  String.prefix pre (name +:+ "(" +:+ rest) = String.prefix pre name.
Proof.
  revert name. induction pre as [|a pre IH]; intros name Hp.
  - by destruct name.
  - simpl in Hp. apply not_elem_of_cons in Hp as [Ha Hp].
    destruct name as [|b name].
    + change (EmptyString +:+ "(" +:+ rest) with (String "(" rest). simpl.
      destruct (ascii_dec a "(") as [->|_]; done.
    + change (String b name +:+ "(" +:+ rest)
        with (String b (name +:+ "(" +:+ rest)).
      simpl. rewrite IH by done. done.
Qed.

Lemma HasPrefix_package name rest :
  HasPrefix (name +:+ "(" +:+ rest) "package_" = HasPrefix name "package_".
Proof.
  unfold HasPrefix. apply prefix_before_paren.
  simpl. rewrite !not_elem_of_cons. repeat split; try done.
  apply not_elem_of_nil.
Qed.

Lemma listed_elem table name : listed table name = true ↔ name ∈ table.
Proof.
  unfold listed. rewrite existsb_exists. split.
  - intros (v & Hv & ->%String.eqb_eq). by apply list_elem_of_In.
  - intros Hn. exists name. split; [by apply list_elem_of_In|].
    apply String.eqb_refl.
Qed.

Section Construction.
Context {K : Constants} {F : Helpers}.

(** What [NewContainer] does with the fields of a function header: the
    first field is the name, the second one is stored as the value and
    decides on the split-package category. *)
Lemma NewContainer_TD_FUNC l i e name header more :
  lineType l = (TD_FUNC, e, name :: header :: more) →
  NewContainer l i
  = Some (MkContainer
            (if HasPrefix header "package_" then TC_SFUNCTION
             else if listed L_FUNCTIONS name then TC_FUNCTION
             else TC_UFUNCTION)
            name i 0 [NewData TD_FUNC header i], e).
Proof. intros Hl. unfold NewContainer. rewrite Hl. reflexivity. Qed.


End Construction.



(** ** Rendering of a document *)

Lemma concat_Permutation {X} (l1 l2 : list (list X)) :
  l1 ≡ₚ l2 → concat l1 ≡ₚ concat l2.
Proof.
  induction 1 as [|x l1 l2 _ IH|x y l|l1 l2 l3 _ IH1 _ IH2]; simpl.
  - done.
  - by rewrite IH.
  - by rewrite !app_assoc, (comm app x y).
  - by rewrite IH1.
Qed.

Lemma containers_Insert1 p c :
  containers (Pkgbuild_Insert1 p c) ≡ₚ containers p ++ [c].
Proof.
  unfold containers, Pkgbuild_Insert1.
  destruct (p !! Name c) as [lc|] eqn:Hk.
  - rewrite <- insert_delete_eq.
    rewrite map_to_list_insert by apply lookup_delete_eq.
    rewrite <- (map_to_list_delete p (Name c) lc Hk).
    simpl. rewrite <- !app_assoc.
    apply Permutation_app_head. apply (comm app).
  - rewrite map_to_list_insert by done. simpl. apply Permutation_cons_append.
Qed.

Lemma containers_Insert p cont :
  containers (Pkgbuild_Insert p cont) ≡ₚ containers p ++ cont.
Proof.
  unfold Pkgbuild_Insert. revert p.
  induction cont as [|c cont IH]; intros p; simpl.
  - by rewrite app_nil_r.
  - rewrite IH, containers_Insert1. by rewrite <- app_assoc.
Qed.

Lemma flat_map_groups {X Y Z} (f : Y → list Z) (g : X → list Y) (l : list X) :
  flat_map f (concat (g <$> l)) = flat_map (fun x => flat_map f (g x)) l.
Proof.
  induction l as [|x l IH]; [done|].
  rewrite fmap_cons. simpl. by rewrite flat_map_app, IH.
Qed.

Section Document.
Context {K : Constants} {F : Helpers} {E : Emitters}.

(** The copy [pc] that [Pkgbuild.Lines] builds first. *)
Lemma copy_by_Insert (kvs : list (string * list Container)) p0 :
  foldl (fun pc kv => Pkgbuild_Insert pc kv.2) p0 kvs
  = Pkgbuild_Insert p0 (concat kvs.*2).
Proof.
  revert p0. induction kvs as [|kv kvs IH]; intros p0; simpl; [done|].
  rewrite IH. unfold Pkgbuild_Insert. by rewrite foldl_app.
Qed.

Lemma Pkgbuild_Lines_in_stages kvs :
  let pc := Pkgbuild_Insert NewPkgbuild (concat kvs.*2) in
  Pkgbuild_Lines_in kvs
  = flat_map Container_Lines
      (concat (stage_entries pc (Pkgbuild_Order pc) <$> canonical_sequence)).
Proof.
  intros pc. rewrite flat_map_groups.
  unfold Pkgbuild_Lines_in. rewrite copy_by_Insert. fold pc.
  unfold getLinesByKey, getLinesByType, canonical_sequence.
  cbn [fmap list_fmap app flat_map stage_entries].
  rewrite app_nil_r. rewrite <- !app_assoc. reflexivity.
Qed.

Lemma stage_entries_all p kvs o s :
  kvs ≡ₚ map_to_list p →
  filter (selects s) (containers p)
  ⊆+ stage_entries (Pkgbuild_Insert NewPkgbuild (concat kvs.*2)) o s.
Proof.
  intros Hk.
  assert (Hc : concat kvs.*2 ≡ₚ containers p).
  { unfold containers. apply concat_Permutation. by rewrite Hk. }
  destruct s as [k|t]; simpl.
  - etrans; [|apply keyEntries_all].
    destruct (Pkgbuild_Insert_lookup NewPkgbuild (concat kvs.*2) k) as [-> _].
    unfold NewPkgbuild. rewrite lookup_empty. simpl.
    unfold named. by rewrite Hc.
  - etrans; [|apply typeEntries_all].
    rewrite containers_Insert. unfold NewPkgbuild, containers at 2.
    rewrite map_to_list_empty. simpl. by rewrite Hc.
Qed.


End Document.



(** * Further properties *)

(** ** Removal and insertion *)

Lemma Pkgbuild_Remove_in_range p k i lc :
  p !! k = Some lc → (0 ≤ i < len lc)%Z →
  Pkgbuild_Remove p k i = (true, <[k := delete (Z.to_nat i) lc]> p).
Proof.
  intros Hk Hr. unfold Pkgbuild_Remove. rewrite Hk.
  rewrite bool_decide_eq_true_2 by lia.
  replace (Z.to_nat (i + 1)) with (S (Z.to_nat i)) by lia.
  by rewrite <- delete_take_drop.
Qed.

(** X1: a [Remove] with a name of the document and an index within its
    list returns true and takes exactly the container at that index out of
    the list, the others keeping their order; the lists under the other
    names are untouched, and the name stays a key of the document even
    when its list becomes empty. *)
Theorem Pkgbuild_Remove_success p k i lc :
  p !! k = Some lc → (0 ≤ i < len lc)%Z →
  (Pkgbuild_Remove p k i).1 = true
  ∧ (Pkgbuild_Remove p k i).2 !! k = Some (delete (Z.to_nat i) lc)
  ∧ (∀ k', k' ≠ k → (Pkgbuild_Remove p k i).2 !! k' = p !! k')
  ∧ (∃ c, lc !! Z.to_nat i = Some c
          ∧ lc ≡ₚ c :: delete (Z.to_nat i) lc)
  ∧ dom (Pkgbuild_Remove p k i).2 = dom p.
Proof.
  intros Hk Hr. rewrite (Pkgbuild_Remove_in_range p k i lc) by done. simpl.
  split; [done|]. split; [by rewrite lookup_insert_eq|].
  split; [by intros k' Hk'; rewrite lookup_insert_ne|]. split.
  - destruct (lookup_lt_is_Some_2 lc (Z.to_nat i)) as [c Hc];
      [unfold len in Hr; lia|].
    exists c. split; [done|]. by apply delete_Permutation.
  - rewrite dom_insert_L. apply elem_of_dom_2 in Hk. set_solver.
Qed.

(** Witness of X1: the only [pkgver] of the sample document. *)
Lemma Pkgbuild_Remove_success_witness :
  (Pkgbuild_Remove sample_doc "pkgver" 0).1 = true
  ∧ (Pkgbuild_Remove sample_doc "pkgver" 0).2 !! "pkgver" = Some [].
Proof.
  destruct (Pkgbuild_Remove_success sample_doc "pkgver" 0
              [sample_var TC_VARIABLE "pkgver" 1 ["2.0"]])
    as (H1 & H2 & _).
  - vm_compute. reflexivity.
  - vm_compute. split; [discriminate|reflexivity].
  - split; [exact H1|exact H2].
Defined.

(** X2: [Remove] never adds a container and never moves one: whatever its
    arguments, the list under every name afterwards is a sublist of the
    list before, and a document whose containers are filed under their own
    names stays so. *)
Theorem Pkgbuild_Remove_shrinks p k i :
  (∀ k', default [] ((Pkgbuild_Remove p k i).2 !! k')
         `sublist_of` default [] (p !! k'))
  ∧ (keyed p → keyed (Pkgbuild_Remove p k i).2).
Proof.
  assert (Hsub : ∀ k', default [] ((Pkgbuild_Remove p k i).2 !! k')
                       `sublist_of` default [] (p !! k')).
  { intros k'. unfold Pkgbuild_Remove.
    destruct (p !! k) as [lc|] eqn:Hk; [|done].
    case_bool_decide; [|done]. simpl.
    replace (Z.to_nat (i + 1)) with (S (Z.to_nat i)) by lia.
    rewrite <- delete_take_drop.
    destruct (decide (k' = k)) as [->|Hne].
    - rewrite lookup_insert_eq, Hk. simpl. apply sublist_delete.
    - by rewrite lookup_insert_ne. }
  split; [done|].
  intros Hp k' lc c Hk' Hc.
  specialize (Hsub k'). rewrite Hk' in Hsub. simpl in Hsub.
  destruct (p !! k') as [lc'|] eqn:Hpk; simpl in Hsub.
  - apply (Hp k' lc' c Hpk). by eapply elem_of_sublist.
  - apply sublist_nil_r in Hsub. subst lc. by apply elem_of_nil in Hc.
Qed.

(** Witness of X2. *)
Lemma Pkgbuild_Remove_shrinks_witness :
  keyed (Pkgbuild_Remove (Pkgbuild_Insert NewPkgbuild
                            [sample_var TC_VARIABLE "pkgver" 5 ["3.0"]])
           "pkgver" 0).2.
Proof.
  apply Pkgbuild_Remove_shrinks.
  apply Pkgbuild_Insert_keyed.
  intros k lc c Hk. unfold NewPkgbuild in Hk.
  rewrite lookup_empty in Hk. discriminate.
Defined.

(** X3: inserting a container and then removing the last container filed
    under its name gives back the list that was under that name and leaves
    every other name as it was; the document itself is given back when the
    name was already a key, otherwise the name stays as a key with an
    empty list. *)
Theorem Pkgbuild_Insert_Remove p c :
  let old := default [] (p !! Name c) in
  let r := Pkgbuild_Remove (Pkgbuild_Insert p [c]) (Name c) (len old) in
  r.1 = true
  ∧ r.2 !! Name c = Some old
  ∧ (∀ k, k ≠ Name c → r.2 !! k = p !! k)
  ∧ (is_Some (p !! Name c) → r.2 = p).
Proof.
  intros old r. subst r.
  assert (Hl : Pkgbuild_Insert p [c] !! Name c = Some (old ++ [c])).
  { simpl. rewrite Pkgbuild_Insert1_lookup. by rewrite decide_True. }
  rewrite (Pkgbuild_Remove_in_range _ _ _ _ Hl)
    by (unfold len; rewrite length_app; simpl; lia).
  assert (Hd : delete (Z.to_nat (len old)) (old ++ [c]) = old).
  { unfold len. rewrite Nat2Z.id.
    transitivity (old ++ []); [apply (delete_middle old [] c)|].
    apply app_nil_r. }
  rewrite Hd. simpl.
  split; [done|]. split; [by rewrite lookup_insert_eq|]. split.
  - intros k Hk. rewrite lookup_insert_ne by done.
    rewrite Pkgbuild_Insert1_lookup. by rewrite decide_False.
  - intros [lc Hlc]. apply map_eq. intros k.
    destruct (decide (k = Name c)) as [->|Hk].
    + rewrite lookup_insert_eq. subst old. by rewrite Hlc.
    + rewrite lookup_insert_ne by done.
      rewrite Pkgbuild_Insert1_lookup. by rewrite decide_False.
Qed.

Lemma option_list_eq {X} (o1 o2 : option (list X)) :
  default [] o1 = default [] o2 → (o1 = None ↔ o2 = None) → o1 = o2.
Proof.
  destruct o1 as [l1|], o2 as [l2|]; simpl; intros Hd Hn.
  - by subst.
  - by destruct (proj2 Hn eq_refl).
  - by destruct (proj1 Hn eq_refl).
  - done.
Qed.

(** X4: the result of [Insert] depends only on what is inserted under
    each name: two sequences of containers that agree, name by name, on
    the containers of that name and their order give the same document,
    however the names are interleaved. *)
Theorem Pkgbuild_Insert_by_name p cont1 cont2 :
  (∀ k, named k cont1 = named k cont2) →
  Pkgbuild_Insert p cont1 = Pkgbuild_Insert p cont2.
Proof.
  intros Hn. apply map_eq. intros k.
  destruct (Pkgbuild_Insert_lookup p cont1 k) as [Hd1 Hn1].
  destruct (Pkgbuild_Insert_lookup p cont2 k) as [Hd2 Hn2].
  apply option_list_eq.
  - by rewrite Hd1, Hd2, Hn.
  - by rewrite Hn1, Hn2, Hn.
Qed.

(** Witness of X4: a variable and a function inserted in either order. *)
Lemma Pkgbuild_Insert_by_name_witness :
  Pkgbuild_Insert sample_doc
    [sample_var TC_VARIABLE "arch" 3 ["any"];
     MkContainer TC_FUNCTION "build" 4 0 []]
  = Pkgbuild_Insert sample_doc
      [MkContainer TC_FUNCTION "build" 4 0 [];
       sample_var TC_VARIABLE "arch" 3 ["any"]].
Proof.
  apply Pkgbuild_Insert_by_name.
  intros k. rewrite !named_cons. unfold named. rewrite filter_nil.
  simpl. repeat case_decide; congruence.
Defined.

(** ** Appending values and building containers *)

Lemma Container_Append_values c t i v :
  Container_Append c t i v
  = with_Values c (Values c ++ ((fun e => NewData t e i) <$> v)).
Proof.
  unfold Container_Append. revert c.
  induction v as [|e v IH]; intros c; simpl.
  - rewrite app_nil_r. by destruct c.
  - rewrite IH. unfold with_Values. simpl. by rewrite <- app_assoc.
Qed.

(** X5: [Append] adds one value per given text behind the values already
    there, in the order given, each carrying the given type and line; the
    values already there and the other fields of the container are
    untouched. *)
Theorem Container_Append_spec c t i v :
  Values (Container_Append c t i v)
  = Values c ++ ((fun e => NewData t e i) <$> v)
  ∧ (CType (Container_Append c t i v), Name (Container_Append c t i v),
     Begin (Container_Append c t i v), End_ (Container_Append c t i v))
    = (CType c, Name c, Begin c, End_ c).
Proof. by rewrite Container_Append_values. Qed.

Section Building.
Context {K : Constants} {F : Helpers}.

Lemma NewContainer_unfold l i :
  NewContainer l i =
    let '(t, e, d) := lineType l in
    match t with
    | TD_VARIABLE =>
        name ← d !! 1; v ← d !! 2;
        Some (MkContainer
                (if listed L_VARIABLES name then TC_VARIABLE else TC_UVARIABLE)
                name i 0 ((fun x => NewData t x i) <$> splitString v), e)
    | TD_FUNC =>
        name ← d !! 0; header ← d !! 1;
        Some (MkContainer
                (if HasPrefix header "package_" then TC_SFUNCTION
                 else if listed L_FUNCTIONS name then TC_FUNCTION
                 else TC_UFUNCTION)
                name i 0 [NewData t header i], e)
    | TD_UNKNOWN =>
        v ← d !! 0;
        Some (MkContainer TC_UNKNOWN UNKNOWN i 0 [NewData t v i], e)
    | TD_other _ =>
        v ← d !! 0;
        Some (MkContainer TC_BLANKCOMMENT BLANK i 0 [NewData t v i], e)
    end.
Proof.
  unfold NewContainer. destruct (lineType l) as [[t e] d].
  destruct t; simpl.
  - destruct (d !! 1) as [name|]; simpl; [|done].
    destruct (d !! 2) as [v|]; simpl; [|done].
    by rewrite Container_Append_values.
  - by destruct (d !! 0), (d !! 1).
  - by destruct (d !! 0).
  - by destruct (d !! 0).
Qed.

(** X6: from a variable line with fields [_, name, value, ...],
    [NewContainer] builds a container named [name] whose values are the
    tokens [splitString] finds in [value], in their order, each on line
    [i]; it is a recognized variable exactly when [name] occurs in
    [L_VARIABLES], an unrecognized variable otherwise. *)
Theorem NewContainer_variable l i e whole name value more :
  lineType l = (TD_VARIABLE, e, whole :: name :: value :: more) →
  ∃ c, NewContainer l i = Some (c, e)
       ∧ Name c = name
       ∧ Values c = (fun x => NewData TD_VARIABLE x i) <$> splitString value
       ∧ (CType c = TC_VARIABLE ↔ name ∈ L_VARIABLES)
       ∧ (CType c = TC_UVARIABLE ↔ name ∉ L_VARIABLES).
Proof.
  intros Hl. rewrite NewContainer_unfold, Hl. simpl.
  eexists. split; [done|]. simpl. split; [done|]. split; [done|].
  pose proof (listed_elem L_VARIABLES name) as [H1 H2].
  destruct (listed L_VARIABLES name); split; split; try done.
  - intros _. by apply H1.
  - intros Hn. by destruct Hn; apply H1.
  - intros Hn. specialize (H2 Hn). done.
  - intros _ Hn. specialize (H2 Hn). done.
Qed.

(** X7: [NewContainer] fails (the Go code panics on an index out of range)
    exactly when the classifier returns fewer fields than the branch of
    the line type reads: three for a variable, two for a function header,
    one otherwise. *)
Theorem NewContainer_fails l i :
  NewContainer l i = None
  ↔ length (lineType l).2 < fields_read (lineType l).1.1.
Proof.
  rewrite NewContainer_unfold. destruct (lineType l) as [[t e] d]. simpl.
  destruct t; simpl;
    destruct d as [|d0 [|d1 [|d2 d]]]; simpl; split; (done || lia).
Qed.

(** X8: whatever the line, a container that [NewContainer] returns begins
    on line [i], has the end line 0, comes with the end marker of the
    classifier, and all its values carry the line [i] and the type of the
    line; unless the line is a variable it has exactly one value; and its
    category fits the line type and its name: variable categories only
    for variable lines, function categories only for function headers, a
    recognized function only under a name of [L_FUNCTIONS], and the names
    [UNKNOWN] and [BLANK] for the two remaining categories. *)
Theorem NewContainer_invariant l i c e :
  NewContainer l i = Some (c, e) →
  let t := (lineType l).1.1 in
  e = (lineType l).1.2
  ∧ Begin c = i ∧ End_ c = 0%Z
  ∧ Forall (fun d => Line d = i ∧ DType d = t) (Values c)
  ∧ (t ≠ TD_VARIABLE → length (Values c) = 1)
  ∧ (t = TD_VARIABLE ↔ CType c = TC_VARIABLE ∨ CType c = TC_UVARIABLE)
  ∧ (t = TD_FUNC ↔ CType c = TC_FUNCTION ∨ CType c = TC_SFUNCTION
                   ∨ CType c = TC_UFUNCTION)
  ∧ (CType c = TC_VARIABLE → Name c ∈ L_VARIABLES)
  ∧ (CType c = TC_UVARIABLE → Name c ∉ L_VARIABLES)
  ∧ (CType c = TC_FUNCTION → Name c ∈ L_FUNCTIONS)
  ∧ (CType c = TC_UNKNOWN → t = TD_UNKNOWN ∧ Name c = UNKNOWN)
  ∧ (CType c = TC_BLANKCOMMENT → Name c = BLANK).
Proof.
  rewrite NewContainer_unfold. destruct (lineType l) as [[t e0] d]. simpl.
  destruct t; simpl.
  - destruct (d !! 1) as [name|]; simpl; [|done].
    destruct (d !! 2) as [v|]; simpl; [|done].
    intros [= <- <-]. simpl.
    pose proof (listed_elem L_VARIABLES name) as [H1 H2].
    split; [done|]. split; [done|]. split; [done|]. split.
    { apply Forall_fmap, Forall_forall. by intros x _. }
    destruct (listed L_VARIABLES name);
      repeat (split; try done; try (intros; intuition congruence)).
  - destruct (d !! 0) as [name|]; simpl; [|done].
    destruct (d !! 1) as [header|]; simpl; [|done].
    intros [= <- <-]. simpl.
    pose proof (listed_elem L_FUNCTIONS name) as [H1 H2].
    split; [done|]. split; [done|]. split; [done|]. split.
    { by repeat constructor. }
    destruct (HasPrefix header "package_"), (listed L_FUNCTIONS name);
      repeat (split; try done; try (intros; intuition congruence)).
  - destruct (d !! 0) as [v|]; simpl; [|done].
    intros [= <- <-]. simpl.
    split; [done|]. split; [done|]. split; [done|]. split.
    { by repeat constructor. }
    repeat (split; try done; try (intros; intuition congruence)).
  - destruct (d !! 0) as [v|]; simpl; [|done].
    intros [= <- <-]. simpl.
    split; [done|]. split; [done|]. split; [done|]. split.
    { by repeat constructor. }
    repeat (split; try done; try (intros; intuition congruence)).
Qed.

(** X9: a container that [NewContainer] builds from a line that is not a
    variable renders as exactly one line, the text it stored: the header
    text (second field) for a function header, the first field of the
    classifier otherwise, even when that text is empty. *)
Theorem NewContainer_Lines l i c e :
  NewContainer l i = Some (c, e) →
  (lineType l).1.1 ≠ TD_VARIABLE →
  ∃ text,
    (lineType l).2 !! (if decide ((lineType l).1.1 = TD_FUNC) then 1 else 0)
    = Some text
    ∧ Values c = [NewData (lineType l).1.1 text i]
    ∧ Container_Lines c = [text].
Proof.
  rewrite NewContainer_unfold. destruct (lineType l) as [[t e0] d]. simpl.
  intros Hc Ht. destruct t; [done|..]; simpl in *.
  - destruct (d !! 0) as [name|]; simpl in Hc; [|done].
    destruct (d !! 1) as [header|]; simpl in Hc; [|done].
    injection Hc as <- <-. exists header. split; [done|]. split; [done|].
    unfold Container_Lines, Container_UnparseType. simpl.
    destruct (HasPrefix header "package_"), (listed L_FUNCTIONS name);
      simpl; unfold lines_step; simpl; by rewrite orb_true_r.
  - destruct (d !! 0) as [v|]; simpl in Hc; [|done].
    injection Hc as <- <-. exists v. split; [done|]. split; [done|].
    unfold Container_Lines, Container_UnparseType. simpl.
    unfold lines_step. simpl. by rewrite orb_true_r.
  - destruct (d !! 0) as [v|]; simpl in Hc; [|done].
    injection Hc as <- <-. exists v. split; [done|]. split; [done|].
    unfold Container_Lines, Container_UnparseType. simpl.
    unfold lines_step. simpl. by rewrite orb_true_r.
Qed.

End Building.

(** Witness of X6: a recognized and an unrecognized variable. *)
Lemma NewContainer_variable_witness :
  (∃ c, @NewContainer sample_constants sample_helpers "pkgver=1.0" 4
        = Some (c, 0%Z)
        ∧ Name c = "pkgver"
        ∧ Values c = [NewData TD_VARIABLE "1.0" 4])
  ∧ (∃ c, @NewContainer sample_constants sample_helpers "_commit=abc" 9
          = Some (c, 0%Z)
          ∧ Name c = "_commit"
          ∧ Values c = [NewData TD_VARIABLE "abc" 9]).
Proof.
  split.
  - destruct (NewContainer_variable (K:=sample_constants) (F:=sample_helpers)
                "pkgver=1.0" 4 0 "pkgver=1.0" "pkgver" "1.0" [] eq_refl)
      as (c & Hc & Hn & Hv & _).
    exists c. split; [exact Hc|]. split; [exact Hn|exact Hv].
  - destruct (NewContainer_variable (K:=sample_constants) (F:=sample_helpers)
                "_commit=abc" 9 0 "_commit=abc" "_commit" "abc" [] eq_refl)
      as (c & Hc & Hn & Hv & _).
    exists c. split; [exact Hc|]. split; [exact Hn|exact Hv].
Defined.

(** Witness of X8: a line that is neither a variable nor a function
    header. *)
Lemma NewContainer_invariant_witness :
  Begin (MkContainer TC_UNKNOWN "<unknown>" 2 0
           [NewData TD_UNKNOWN "  make" 2]) = 2%Z
  ∧ Name (MkContainer TC_UNKNOWN "<unknown>" 2 0
            [NewData TD_UNKNOWN "  make" 2]) = "<unknown>".
Proof.
  pose proof (NewContainer_invariant (K:=sample_constants)
                (F:=sample_helpers) "  make" 2
                (MkContainer TC_UNKNOWN "<unknown>" 2 0
                   [NewData TD_UNKNOWN "  make" 2]) 0 eq_refl)
    as (_ & Hb & _ & _ & _ & _ & _ & _ & _ & _ & Hu & _).
  split; [exact Hb|]. apply Hu. reflexivity.
Defined.

(** Witness of X9: the same line, rendered. *)
Lemma NewContainer_Lines_witness :
  ∃ text,
    @Container_Lines sample_constants sample_helpers
      (MkContainer TC_UNKNOWN "<unknown>" 2 0 [NewData TD_UNKNOWN "  make" 2])
    = [text].
Proof.
  destruct (NewContainer_Lines (K:=sample_constants) (F:=sample_helpers)
              "  make" 2
              (MkContainer TC_UNKNOWN "<unknown>" 2 0
                 [NewData TD_UNKNOWN "  make" 2]) 0 eq_refl)
    as (text & _ & _ & Hl).
  - vm_compute. discriminate.
  - exists text. exact Hl.
Defined.

(** ** More on the rendering of one container *)

Lemma prefix_append (s t : string) : String.prefix s (s +:+ t) = true.
Proof.
  induction s as [|a s IH]; [by destruct t|].
  change (String a s +:+ t) with (String a (s +:+ t)). simpl.
  by destruct (ascii_dec a a).
Qed.

Lemma append_assoc (s t u : string) : (s +:+ t) +:+ u = s +:+ t +:+ u.
Proof.
  induction s as [|a s IH]; [done|].
  change (String a (s +:+ t) +:+ u = String a (s +:+ t +:+ u)).
  change (String a ((s +:+ t) +:+ u) = String a (s +:+ t +:+ u)).
  by rewrite IH.
Qed.

Lemma collapse_sublist blank ls : collapse blank ls `sublist_of` ls.
Proof.
  revert blank. induction ls as [|l rest IH]; intros blank; simpl; [done|].
  destruct (negb (l =? "")%string || negb blank); simpl.
  - by apply sublist_skip.
  - by apply sublist_cons.
Qed.

Lemma collapse_length blank ls : length (collapse blank ls) ≤ length ls.
Proof. apply sublist_length, collapse_sublist. Qed.

Lemma collapse_nonempty blank ls :
  filter (fun l => l ≠ EmptyString) (collapse blank ls)
  = filter (fun l => l ≠ EmptyString) ls.
Proof.
  revert blank. induction ls as [|l rest IH]; intros blank; [done|].
  cbn [collapse]. rewrite eqb_empty, filter_app, IH, (filter_cons _ l rest).
  case_bool_decide as Hl.
  - subst l. rewrite decide_False by (by intros []).
    destruct blank; cbn [negb orb]; [done|].
    rewrite filter_cons, decide_False by (by intros []). done.
  - rewrite decide_True by done. cbn [negb orb].
    rewrite filter_cons, decide_True by done. done.
Qed.

Lemma adjacent_blanks_cons l rest :
  adjacent_blanks (l :: rest)
  ↔ (l = EmptyString ∧ rest !! 0 = Some EmptyString) ∨ adjacent_blanks rest.
Proof.
  unfold adjacent_blanks. split.
  - intros ([|i] & Hi & Hj); simpl in *.
    + left. split; [congruence|done].
    + right. by exists i.
  - intros [[-> Hr]|(i & Hi & Hj)].
    + by exists 0.
    + by exists (S i).
Qed.

Lemma collapse_all blank ls :
  collapse blank ls = ls
  ↔ (blank = true → ls !! 0 ≠ Some EmptyString) ∧ ¬ adjacent_blanks ls.
Proof.
  revert blank. induction ls as [|l rest IH]; intros blank.
  - split; [|done]. intros _. split; [done|]. by intros (i & Hi & _).
  - cbn [collapse]. rewrite eqb_empty, adjacent_blanks_cons.
    case_bool_decide as Hl; destruct blank; cbn [negb orb app].
    + subst l. split.
      * intros Heq. pose proof (collapse_length true rest) as Hlen.
        rewrite Heq in Hlen. simpl in Hlen. lia.
      * intros [Hhead _]. by destruct (Hhead eq_refl).
    + subst l. split.
      * intros [= Hrest]. apply IH in Hrest as [Hhead Hadj].
        split; [done|]. intros [[_ Hr]|Ha]; [by apply Hhead|done].
      * intros [_ Hadj]. f_equal. apply IH. split.
        -- intros _ Hr. apply Hadj. by left.
        -- intros Ha. apply Hadj. by right.
    + split.
      * intros [= Hrest]. apply IH in Hrest as [_ Hadj].
        split; [simpl; congruence|]. intros [[? _]|Ha]; done.
      * intros [_ Hadj]. f_equal. apply IH. split; [done|].
        intros Ha. apply Hadj. by right.
    + split.
      * intros [= Hrest]. apply IH in Hrest as [_ Hadj].
        split; [done|]. intros [[? _]|Ha]; done.
      * intros [_ Hadj]. f_equal. apply IH. split; [done|].
        intros Ha. apply Hadj. by right.
Qed.

Section MoreRendering.
Context {K : Constants} {F : Helpers}.

(** X10: with each of the six one-line variable styles a container renders
    as exactly one line, whatever the number of its values, and that line
    begins with the name followed by [=]. *)
Theorem Container_Lines_one_line c :
  Container_UnparseType c ≠ TU_MULTIPLELINES →
  Container_UnparseType c ≠ TU_LINES →
  ∃ line, Container_Lines c = [line]
          ∧ HasPrefix line (Name c +:+ "=") = true.
Proof.
  intros Hm Hl. unfold Container_Lines, HasPrefix.
  destruct (Container_UnparseType c); try done; simpl;
    try case_bool_decide; eexists; (split; [done|]);
    rewrite <- ?append_assoc;
    try apply prefix_append.
  all: change "=(" with ("=" +:+ "(")%string;
    rewrite <- (append_assoc (Name c) "=" "("), !append_assoc,
      <- (append_assoc (Name c) "=");
    apply prefix_append.
Qed.

(** X11: with the verbatim style the rendering is a sublist of the texts
    of the values, keeps every non-empty text in its place and order, and
    equals the texts of the values exactly when no two consecutive texts
    are empty. *)
Theorem Container_Lines_verbatim_lossless c :
  Container_UnparseType c = TU_LINES →
  Container_Lines c `sublist_of` (Value <$> Values c)
  ∧ filter (fun l => l ≠ EmptyString) (Container_Lines c)
    = filter (fun l => l ≠ EmptyString) (Value <$> Values c)
  ∧ (Container_Lines c = (Value <$> Values c)
     ↔ ¬ adjacent_blanks (Value <$> Values c)).
Proof.
  intros Hs. rewrite Container_Lines_TU_LINES by done.
  split; [apply collapse_sublist|]. split; [apply collapse_nonempty|].
  rewrite collapse_all. split; [by intros [_ ?]|]. by intros ?.
Qed.

(** X12: [Set] keeps the rendering style of the container; on a container
    without values every [Set] fails; a [Set] that succeeds with a
    non-empty text leaves the number of values as it is, so that the
    container is not empty afterwards, and a [Set] that succeeds with the
    empty text leaves the container empty exactly when it had one
    value. *)
Theorem Container_Set_Empty c idx v :
  Container_UnparseType (Container_Set c idx v).2 = Container_UnparseType c
  ∧ (Container_Empty c = true → Container_Set c idx v = (false, c))
  ∧ ((Container_Set c idx v).1 = true →
     if bool_decide (v = EmptyString)
     then Container_Empty (Container_Set c idx v).2
          = bool_decide (len (Values c) = 1%Z)
     else Container_Empty (Container_Set c idx v).2 = false).
Proof.
  split; [|split].
  - unfold Container_Set. by repeat case_bool_decide.
  - unfold Container_Empty. intros He%bool_decide_eq_true.
    apply Container_Set_out_of_range. pose proof (len_nonneg (Values c)). lia.
  - rewrite Container_Set_result. intros Hr%bool_decide_eq_true.
    rewrite Container_Set_in_range by done. unfold Container_Empty. simpl.
    assert (Hlt : Z.to_nat idx < length (Values c)) by (unfold len in Hr; lia).
    case_bool_decide.
    + apply bool_decide_ext. unfold len.
      rewrite length_delete by (by apply lookup_lt_is_Some_2). lia.
    + apply bool_decide_eq_false. unfold len. rewrite length_alter.
      unfold len in Hr. lia.
Qed.

End MoreRendering.

(** Witness of X10: an unrecognized variable with two values. *)
Lemma Container_Lines_one_line_witness :
  ∃ line,
    @Container_Lines sample_constants sample_helpers
      (sample_var TC_UVARIABLE "_extra" 2 ["a"; "b"]) = [line]
    ∧ HasPrefix line "_extra=" = true.
Proof.
  apply (Container_Lines_one_line (K:=sample_constants) (F:=sample_helpers)
           (sample_var TC_UVARIABLE "_extra" 2 ["a"; "b"])).
  - vm_compute. discriminate.
  - vm_compute. discriminate.
Defined.

(** Witness of X11: a function body without consecutive blank lines is
    rendered as it is. *)
Lemma Container_Lines_verbatim_lossless_witness :
  @Container_Lines sample_constants sample_helpers
     (MkContainer TC_FUNCTION "build" 0 0
        (sample_data <$> ["build() {"; ""; "  make"; ""; "}"]))
  = ["build() {"; ""; "  make"; ""; "}"].
Proof.
  destruct (Container_Lines_verbatim_lossless (K:=sample_constants)
              (F:=sample_helpers)
              (MkContainer TC_FUNCTION "build" 0 0
                 (sample_data <$> ["build() {"; ""; "  make"; ""; "}"]))
              eq_refl) as (_ & _ & Hall).
  apply Hall. intros (i & Hi & Hj).
  do 5 (destruct i as [|i]; [simpl in *; congruence|]).
  simpl in Hi. discriminate.
Defined.

(** ** The ordering index *)

Lemma stores_lookup (l : list (Container * Container)) c prev :
  foldl (fun (out : OrderIndex) ci => <[ci.1 := ci.2]> out) ∅ l !! c
  = Some prev →
  (c, prev) ∈ l.
Proof.
  induction l as [|[c' prev'] l IH] using rev_ind; [done|].
  rewrite foldl_app. simpl. rewrite elem_of_app, list_elem_of_singleton.
  destruct (decide (c' = c)) as [->|Hne].
  - rewrite lookup_insert_eq. intros [= ->]. by right.
  - rewrite lookup_insert_ne by done. intros Hl. left. by apply IH.
Qed.

Lemma stores_key (l : list (Container * Container)) c :
  c ∈ l.*1 →
  is_Some (foldl (fun (out : OrderIndex) ci => <[ci.1 := ci.2]> out) ∅ l !! c).
Proof.
  induction l as [|[c' prev'] l IH] using rev_ind; [by intros ?%elem_of_nil|].
  rewrite fmap_app, foldl_app. simpl.
  rewrite elem_of_app, list_elem_of_singleton.
  destruct (decide (c' = c)) as [->|Hne].
  - intros _. by rewrite lookup_insert_eq.
  - rewrite lookup_insert_ne by done. intros [Hc|Hc]; [by apply IH|done].
Qed.

Lemma stores_size (l : list (Container * Container)) :
  size (foldl (fun (out : OrderIndex) ci => <[ci.1 := ci.2]> out) ∅ l)
  ≤ length l.
Proof.
  induction l as [|[c' prev'] l IH] using rev_ind; [done|].
  rewrite foldl_app, length_app. simpl. rewrite map_size_insert.
  destruct (_ !! c'); simpl; lia.
Qed.

Lemma stores_distinct (l : list (Container * Container)) :
  NoDup l.*1 →
  size (foldl (fun (out : OrderIndex) ci => <[ci.1 := ci.2]> out) ∅ l)
  = length l
  ∧ ∀ c prev, (c, prev) ∈ l →
      foldl (fun (out : OrderIndex) ci => <[ci.1 := ci.2]> out) ∅ l !! c
      = Some prev.
Proof.
  induction l as [|[c' prev'] l IH] using rev_ind; [by split; [|intros ?? ?%elem_of_nil]|].
  rewrite fmap_app. simpl. intros [Hnd [Hc' _]]%NoDup_app.
  destruct (IH Hnd) as [IHs IHl].
  assert (Hfresh : foldl (fun (out : OrderIndex) ci => <[ci.1 := ci.2]> out)
                     ∅ l !! c' = None).
  { apply eq_None_not_Some. intros [prev Hp].
    apply stores_lookup in Hp.
    apply (Hc' c'); [|apply list_elem_of_here].
    apply list_elem_of_fmap. by exists (c', prev). }
  rewrite foldl_app, length_app. simpl. split.
  - rewrite map_size_insert_None by done. lia.
  - intros c prev [Hin|Hin%list_elem_of_singleton]%elem_of_app.
    + rewrite lookup_insert_ne; [by apply IHl|].
      intros ->. apply (Hc' c); [|apply list_elem_of_here].
      apply list_elem_of_fmap. by exists (c, prev).
    + injection Hin as -> ->. by rewrite lookup_insert_eq.
Qed.

Lemma adjacent_pairs (cs : list Container) c prev :
  (c, prev) ∈ zip (drop 1 cs) cs
  ↔ ∃ i, cs !! S i = Some c ∧ cs !! i = Some prev.
Proof.
  rewrite list_elem_of_lookup. split.
  - intros (i & Hi). exists i.
    apply lookup_zip_with_Some in Hi as (x & y & [= <- <-] & Hx & Hy).
    by rewrite lookup_drop in Hx.
  - intros (i & Hc & Hp). exists i.
    apply lookup_zip_with_Some. exists c, prev.
    by rewrite lookup_drop.
Qed.

Section Ordering.
Context {F : Helpers}.

Lemma Pkgbuild_Order_stores p :
  Pkgbuild_Order p
  = foldl (fun (out : OrderIndex) ci => <[ci.1 := ci.2]> out) ∅
      (zip (drop 1 (Pkgbuild_Sort p)) (Pkgbuild_Sort p)).
Proof.
  unfold Pkgbuild_Order. cbv zeta. case_bool_decide as Hn; [done|].
  destruct (Pkgbuild_Sort p) as [|c [|c' cs]]; try done.
  unfold len in Hn. simpl in Hn. lia.
Qed.

(** [sort.Sort] only swaps elements. *)
Hypothesis sort_Sort_perm :
  ∀ less (l : list Container), sort_Sort less l ≡ₚ l.

(** X13: every entry of the ordering index maps a container to the
    element just before one of its places in the sorted sequence, both
    being containers of the document; every element of the sorted
    sequence but the first is a key of the index; the index of a document
    with [n] containers has at most [n - 1] entries (none for at most one
    container, a later store for the same container replacing the earlier
    one), and exactly [n - 1], one for each pair of neighbours, when the
    containers are pairwise different. *)
Theorem Pkgbuild_Order_chain p :
  let o := Pkgbuild_Order p in
  let cs := Pkgbuild_Sort p in
  (∀ c prev, o !! c = Some prev →
     ∃ i, cs !! S i = Some c ∧ cs !! i = Some prev)
  ∧ (∀ i c, cs !! S i = Some c → is_Some (o !! c))
  ∧ (∀ c prev, o !! c = Some prev → c ∈ containers p ∧ prev ∈ containers p)
  ∧ size o ≤ length (containers p) - 1
  ∧ (NoDup (containers p) →
     size o = length (containers p) - 1
     ∧ ∀ i c prev, cs !! S i = Some c → cs !! i = Some prev →
                   o !! c = Some prev).
Proof.
  intros o cs. subst o. rewrite Pkgbuild_Order_stores. fold cs.
  assert (Hperm : cs ≡ₚ containers p) by apply sort_Sort_perm.
  assert (Hlen : length (zip (drop 1 cs) cs) = length (containers p) - 1).
  { rewrite length_zip_with, length_drop, <- Hperm. lia. }
  assert (Hadj : ∀ c prev,
            foldl (fun (out : OrderIndex) ci => <[ci.1 := ci.2]> out) ∅
              (zip (drop 1 cs) cs) !! c = Some prev →
            ∃ i, cs !! S i = Some c ∧ cs !! i = Some prev).
  { intros c prev Hl. by apply adjacent_pairs, stores_lookup. }
  split; [done|]. split; [|split; [|split]].
  - intros i c Hc. apply stores_key.
    rewrite fst_zip by (rewrite length_drop; lia).
    apply list_elem_of_lookup. exists i. by rewrite lookup_drop.
  - intros c prev (i & Hc & Hp)%Hadj.
    split; rewrite <- Hperm; by eapply list_elem_of_lookup_2.
  - rewrite <- Hlen. apply stores_size.
  - intros Hnd.
    assert (Hkeys : NoDup (zip (drop 1 cs) cs).*1).
    { rewrite fst_zip by (rewrite length_drop; lia).
      eapply sublist_NoDup; [|apply sublist_drop]. by rewrite Hperm. }
    destruct (stores_distinct _ Hkeys) as [Hs Hl]. split.
    + by rewrite Hs.
    + intros i c prev Hc Hp. apply Hl, adjacent_pairs. by exists i.
Qed.

End Ordering.

(** Witness of X13, with a stable merge sort for [sort.Sort]: a container
    filed three times has one entry, the sample document has two. *)
Lemma Pkgbuild_Order_chain_witness :
  size (@Pkgbuild_Order sample_helpers sample_doc)
  ≤ length (containers sample_doc) - 1
  ∧ size (@Pkgbuild_Order sample_helpers
            (Pkgbuild_Insert NewPkgbuild
               [sample_var TC_VARIABLE "a" 0 [];
                sample_var TC_VARIABLE "a" 0 [];
                sample_var TC_VARIABLE "a" 0 []])) = 1.
Proof.
  split.
  - destruct (Pkgbuild_Order_chain (F:=sample_helpers)
                (fun less l => merge_sort_Permutation _ l) sample_doc)
      as (_ & _ & _ & Hsize & _).
    exact Hsize.
  - vm_compute. reflexivity.
Defined.

(** ** The copy made by [Pkgbuild.Lines] *)

Lemma named_all k lc : Forall (fun c => Name c = k) lc → named k lc = lc.
Proof.
  induction 1 as [|c lc Hc _ IH]; [done|].
  by rewrite named_cons, decide_True, IH.
Qed.

Lemma named_none k lc : Forall (fun c => Name c ≠ k) lc → named k lc = [].
Proof.
  induction 1 as [|c lc Hc _ IH]; [done|].
  by rewrite named_cons, decide_False.
Qed.

Lemma named_concat_filed (kvs : list (string * list Container)) k :
  NoDup kvs.*1 →
  Forall (fun kv => Forall (fun c => Name c = kv.1) kv.2) kvs →
  named k (concat kvs.*2)
  = default [] ((list_to_map kvs : Pkgbuild) !! k).
Proof.
  induction kvs as [|[k' lc] kvs IH]; intros Hnd Hf; [done|].
  rewrite fmap_cons in Hnd. apply NoDup_cons in Hnd as [Hk' Hnd].
  apply Forall_cons in Hf as [Hlc Hf]. simpl in Hlc, Hk'.
  rewrite fmap_cons. simpl concat. rewrite named_app, list_to_map_cons.
  rewrite IH by done.
  destruct (decide (k' = k)) as [->|Hne].
  - rewrite lookup_insert_eq, named_all by done.
    rewrite (not_elem_of_list_to_map_1 kvs k Hk'). simpl. apply app_nil_r.
  - rewrite lookup_insert_ne by done.
    rewrite named_none; [done|].
    eapply Forall_impl; [exact Hlc|]. simpl. congruence.
Qed.

(** X14: the copy of the document that [Lines] builds first, by inserting
    every list of the document again, is always filed under the
    containers' own names, whatever the order in which the map is
    traversed; when the document itself is filed so, the copy holds under
    every name the same list in the same order, a name with an empty list
    being dropped. *)
Theorem Pkgbuild_Lines_copy p kvs :
  kvs ≡ₚ map_to_list p →
  let pc := foldl (fun pc kv => Pkgbuild_Insert pc kv.2) NewPkgbuild kvs in
  keyed pc
  ∧ (keyed p →
     ∀ k, default [] (pc !! k) = default [] (p !! k)
          ∧ (pc !! k = None ↔ default [] (p !! k) = [])).
Proof.
  intros Hk pc. subst pc. rewrite copy_by_Insert. split.
  - apply Pkgbuild_Insert_keyed. intros k lc c Hl.
    unfold NewPkgbuild in Hl. by rewrite lookup_empty in Hl.
  - intros Hp k.
    destruct (Pkgbuild_Insert_lookup NewPkgbuild (concat kvs.*2) k)
      as [Hd Hn].
    unfold NewPkgbuild in *. rewrite lookup_empty in Hd, Hn.
    simpl in Hd.
    assert (Hnamed : named k (concat kvs.*2) = default [] (p !! k)).
    { rewrite named_concat_filed.
      - rewrite (list_to_map_proper kvs (map_to_list p)), list_to_map_to_list;
          [done| |done].
        rewrite Hk. apply NoDup_fst_map_to_list.
      - rewrite Hk. apply NoDup_fst_map_to_list.
      - rewrite Hk. apply Forall_forall. intros [k' lc] Hin.
        apply elem_of_map_to_list in Hin. simpl.
        apply Forall_forall. intros c Hc. by eapply Hp. }
    rewrite Hd, Hn, Hnamed. split; [done|]. tauto.
Qed.

(** Witness of X14 on the sample document. *)
Lemma Pkgbuild_Lines_copy_witness :
  keyed (foldl (fun pc kv => Pkgbuild_Insert pc kv.2) NewPkgbuild
           (map_to_list sample_doc)).
Proof.
  apply (Pkgbuild_Lines_copy sample_doc (map_to_list sample_doc)).
  reflexivity.
Defined.

(** ** The debugging output *)

Lemma append_nil_r (s : string) : s +:+ "" = s.
Proof.
  induction s as [|a s IH]; [done|].
  change (String a (s +:+ "") = String a s). by rewrite IH.
Qed.

Lemma concat_empty_cons (a : string) (l : list string) :
  String.concat "" (a :: l) = a +:+ String.concat "" l.
Proof. destruct l; [by rewrite append_nil_r|done]. Qed.

Lemma concat_LF_items (items : list string) (x : string) :
  x +:+ String.concat "" ((fun y => LF +:+ y) <$> items)
  = String.concat LF (x :: items).
Proof.
  revert x. induction items as [|y items IH]; intros x.
  - apply append_nil_r.
  - rewrite fmap_cons, concat_empty_cons, append_assoc, IH. done.
Qed.

Lemma StringWithoutName_step (ds : list Data) (s : string) :
  s ≠ EmptyString →
  foldl (fun s d =>
           let s := if negb (String.eqb s "") then s +:+ LF else s in
           s +:+ " - '" +:+ Data_String d +:+ "'") s ds
  = s +:+ String.concat ""
            ((fun y => LF +:+ y)
               <$> ((fun d => " - '" +:+ Value d +:+ "'") <$> ds)).
Proof.
  revert s. induction ds as [|d ds IH]; intros s Hs.
  - simpl. by rewrite append_nil_r.
  - cbn [foldl]. cbv zeta.
    assert (negb (s =? "")%string = true) as ->
      by (apply negb_true_iff; by apply String.eqb_neq).
    rewrite IH by (by destruct s).
    unfold Data_String. rewrite !fmap_cons, concat_empty_cons.
    by rewrite !append_assoc.
Qed.

(** X15: [StringWithoutName] is the list of the values, one per line: the
    items [ - 'text'] of the values in their order, joined by line feeds,
    and the empty string for a container without values; [String] puts
    the name on a line of its own in front of it. *)
Theorem Container_StringWithoutName_spec c :
  Container_StringWithoutName c
  = String.concat LF ((fun d => " - '" +:+ Value d +:+ "'") <$> Values c)
  ∧ Container_String c
    = Name c +:+ LF
      +:+ String.concat LF
            ((fun d => " - '" +:+ Value d +:+ "'") <$> Values c).
Proof.
  assert (H : Container_StringWithoutName c
              = String.concat LF
                  ((fun d => " - '" +:+ Value d +:+ "'") <$> Values c)).
  { unfold Container_StringWithoutName.
    destruct (Values c) as [|d ds]; [done|].
    cbn [foldl]. cbv zeta. cbn [String.eqb negb].
    rewrite StringWithoutName_step by done.
    unfold Data_String. change (EmptyString +:+ ?x) with x.
    rewrite fmap_cons. apply concat_LF_items. }
  split; [done|]. unfold Container_String. by rewrite H.
Qed.

(** ** The version of a remote PKGBUILD *)

Lemma prefix_slice (pre l : string) :
  String.prefix pre l = true → l = pre +:+ slice_from (String.length pre) l.
Proof.
  revert l. induction pre as [|a pre IH]; intros l Hp; [done|].
  destruct l as [|b l]; [done|]. simpl in Hp.
  destruct (ascii_dec a b) as [->|]; [|done].
  change (String b l = String b (pre +:+ slice_from (String.length pre) l)).
  f_equal. by apply IH.
Qed.

Lemma Split_LF_nonempty s : Split_LF s ≠ [].
Proof.
  destruct s as [|a s]; [done|]. simpl.
  destruct (Ascii.eqb a "010"); [done|]. by destruct (Split_LF s).
Qed.

Lemma Split_LF_append r1 r2 :
  Split_LF (r1 +:+ LF +:+ r2) = Split_LF r1 ++ Split_LF r2.
Proof.
  induction r1 as [|a r1 IH]; [done|].
  change (String a r1 +:+ LF +:+ r2) with (String a (r1 +:+ LF +:+ r2)).
  cbn [Split_LF]. rewrite IH.
  destruct (Ascii.eqb a "010"); [done|].
  pose proof (Split_LF_nonempty r1). by destruct (Split_LF r1).
Qed.

Section RemoteVersionProperties.
Variable TrimSpace : string → string.
Variable unknown_version : string.

Lemma remoteVersion_loop_sound pkgver pkgrel lines v :
  remoteVersion_loop TrimSpace pkgver pkgrel lines = Some v →
  ∃ a b, v = a +:+ "-" +:+ b ∧ a ≠ EmptyString ∧ b ≠ EmptyString
         ∧ (a = pkgver ∨ "pkgver=" +:+ a ∈ TrimSpace <$> lines)
         ∧ (b = pkgrel ∨ "pkgrel=" +:+ b ∈ TrimSpace <$> lines).
Proof.
  revert pkgver pkgrel.
  induction lines as [|l lines IH]; intros pkgver pkgrel; [done|].
  cbn [remoteVersion_loop]. cbv zeta. rewrite fmap_cons.
  assert (Hstep : ∀ a0 b0,
    (a0 = pkgver ∨ "pkgver=" +:+ a0 = TrimSpace l) →
    (b0 = pkgrel ∨ "pkgrel=" +:+ b0 = TrimSpace l) →
    (if negb (a0 =? "")%string && negb (b0 =? "")%string
     then Some (a0 +:+ "-" +:+ b0)
     else remoteVersion_loop TrimSpace a0 b0 lines) = Some v →
    ∃ a b, v = a +:+ "-" +:+ b ∧ a ≠ EmptyString ∧ b ≠ EmptyString
           ∧ (a = pkgver ∨ "pkgver=" +:+ a ∈ TrimSpace l :: (TrimSpace <$> lines))
           ∧ (b = pkgrel ∨ "pkgrel=" +:+ b ∈ TrimSpace l :: (TrimSpace <$> lines))).
  { intros a0 b0 Ha Hb. rewrite !eqb_empty.
    destruct (bool_decide (a0 = EmptyString)) eqn:Ea;
      destruct (bool_decide (b0 = EmptyString)) eqn:Eb; simpl.
    1-3: intros (a & b & -> & Hna & Hnb & Hia & Hib)%IH;
      exists a, b; split; [done|]; split; [done|]; split; [done|]; split;
      [ destruct Hia as [->|Hia]; [|by right; right];
        destruct Ha as [->|Ha]; [by left|right; rewrite Ha; by left]
      | destruct Hib as [->|Hib]; [|by right; right];
        destruct Hb as [->|Hb]; [by left|right; rewrite Hb; by left] ].
    intros [= <-]. apply bool_decide_eq_false in Ea, Eb.
    exists a0, b0. split; [done|]. split; [done|]. split; [done|]. split.
    - destruct Ha as [->|Ha]; [by left|right; rewrite Ha; by left].
    - destruct Hb as [->|Hb]; [by left|right; rewrite Hb; by left]. }
  destruct (HasPrefix (TrimSpace l) "pkgver=") eqn:Hv.
  - apply Hstep; [right|by left].
    symmetry. by apply (prefix_slice "pkgver=").
  - destruct (HasPrefix (TrimSpace l) "pkgrel=") eqn:Hr.
    + apply Hstep; [by left|right].
      symmetry. by apply (prefix_slice "pkgrel=").
    + apply Hstep; by left.
Qed.

Lemma remoteVersion_loop_app pkgver pkgrel lines1 lines2 v :
  remoteVersion_loop TrimSpace pkgver pkgrel lines1 = Some v →
  remoteVersion_loop TrimSpace pkgver pkgrel (lines1 ++ lines2) = Some v.
Proof.
  revert pkgver pkgrel.
  induction lines1 as [|l lines1 IH]; intros pkgver pkgrel; [done|].
  cbn [remoteVersion_loop app]. cbv zeta.
  destruct (if HasPrefix (TrimSpace l) "pkgver=" then _ else _) as [a b].
  destruct (negb (a =? "")%string && negb (b =? "")%string); [done|].
  apply IH.
Qed.

(** X16: when [remoteVersion] reports a version, that version is
    [a-b] for non-empty [a] and [b] such that, after trimming, some line
    of the body is [pkgver=a] and some line is [pkgrel=b]; nothing is
    unquoted or expanded.  In every other case, an error of the request
    included, it reports the unknown version together with false. *)
Theorem remoteVersion_sound answer :
  let r := remoteVersion TrimSpace unknown_version answer in
  (r.2 = true →
   ∃ body a b,
     answer = Some body ∧ r.1 = a +:+ "-" +:+ b
     ∧ a ≠ EmptyString ∧ b ≠ EmptyString
     ∧ "pkgver=" +:+ a ∈ TrimSpace <$> Split_LF body
     ∧ "pkgrel=" +:+ b ∈ TrimSpace <$> Split_LF body)
  ∧ (r.2 = false → r.1 = unknown_version)
  ∧ (answer = None → r = (unknown_version, false)).
Proof.
  intros r. subst r. unfold remoteVersion.
  destruct answer as [body|]; [|done].
  destruct (remoteVersion_loop TrimSpace "" "" (Split_LF body)) as [v|] eqn:Hl;
    simpl; [|done].
  split; [|done]. intros _.
  apply remoteVersion_loop_sound in Hl
    as (a & b & -> & Ha & Hb & [->|Hia] & [->|Hib]); try done.
  by exists body, a, b.
Qed.

(** X17: the lines behind the one at which [remoteVersion] returns are not
    read: a body that gives a version gives the same version when further
    lines are put behind it. *)
Theorem remoteVersion_stable body more v :
  remoteVersion TrimSpace unknown_version (Some body) = (v, true) →
  remoteVersion TrimSpace unknown_version (Some (body +:+ LF +:+ more))
  = (v, true).
Proof.
  unfold remoteVersion. rewrite Split_LF_append.
  destruct (remoteVersion_loop TrimSpace "" "" (Split_LF body)) as [v'|] eqn:Hl;
    [|done].
  intros [= ->]. by rewrite (remoteVersion_loop_app _ _ _ _ _ Hl).
Qed.

End RemoteVersionProperties.

(** Witness of X17, with the identity for [strings.TrimSpace]: a second
    [pkgver] behind a complete version is not read. *)
Lemma remoteVersion_stable_witness :
  remoteVersion (fun l => l) "?"
    (Some (("pkgver=1.2" +:+ LF +:+ "pkgrel=3") +:+ LF +:+ "pkgver=9"))
  = ("1.2-3", true).
Proof.
  apply (remoteVersion_stable (fun l => l) "?"
           ("pkgver=1.2" +:+ LF +:+ "pkgrel=3") "pkgver=9" "1.2-3").
  vm_compute. reflexivity.
Defined.
